(** * The calculator's safe expression evaluator (app.py)

    A shallow embedding of [_eval_node] and [safe_eval] of app.py, together
    with the whitelist tables [_allowed_binops], [_allowed_unaryops],
    [_math_funcs] and [_constants] they consult, and of the script of the
    page that calls them: the keypad, the buffer, "Compute" and the history.

    The evaluator computes on the objects of the host language, so the
    embedding starts with a model of those: Python's numeric values
    (arbitrary-precision [int], [bool] as a subclass of [int], binary64
    [float], [complex]), the exceptions the numeric operations raise, the
    functions of the [operator] and [math] modules that the tables name, and
    the expression trees that [ast.parse] builds.  The reference is CPython
    3.10 to 3.13.  The C library's transcendental functions are a parameter
    ([Libm]); the four basic float operations and the square root are the
    kernel's IEEE-754 binary64 operations.  The limits of the host on
    resources (recursion depth, memory) are not modelled. *)

From Stdlib Require Import ZArith List String Ascii Bool Lia Floats.
Import ListNotations.

Local Open Scope string_scope.
Local Open Scope Z_scope.

Set Warnings "-register-all,-inexact-float".

(** ** Python values and exceptions *)

Module Py.

(** The values an evaluation can produce.  [bool] is kept apart from [int]
    because the evaluator returns a Boolean constant as it is; in arithmetic
    a Boolean counts as the integer 0 or 1. *)
Inductive value : Type :=
| VInt (n : Z)
| VBool (b : bool)
| VFloat (x : float)
| VComplex (re im : float).

(** The exception classes the numeric operations raise. *)
Inductive exc : Type :=
| TypeError
| ValueError
| ZeroDivisionError
| OverflowError.

(** A call of a host function returns or raises. *)
Inductive res (A : Type) : Type :=
| Ret (a : A)
| Raise (e : exc).
Arguments Ret {A} a.
Arguments Raise {A} e.

Definition bind {A B : Type} (r : res A) (k : A -> res B) : res B :=
  match r with
  | Ret a => k a
  | Raise e => Raise e
  end.

Notation "x <- r ;; k" := (bind r (fun x => k))
  (at level 61, r at next level, right associativity).

(** The numeric tower: the kind of arithmetic two operands meet in. *)
Inductive num : Type :=
| NInt (n : Z)
| NFloat (x : float)
| NComplex (re im : float).

Definition num_of (v : value) : num :=
  match v with
  | VInt n => NInt n
  | VBool b => NInt (Z.b2z b)
  | VFloat x => NFloat x
  | VComplex re im => NComplex re im
  end.

(** *** Conversions between integers and floats *)

(** [PyLong_AsDouble]: the nearest double, ties to even; an integer beyond
    the range of a double raises OverflowError. *)
Definition to_double (n : Z) : res float :=
  match binary_normalize prec emax n 0 false with
  | S754_infinity _ => Raise OverflowError
  | sf => Ret (SF2Prim sf)
  end.

(** The correctly rounded quotient of two integers, [b] not zero
    ([long_true_divide]); a zero numerator takes the sign of the quotient. *)
Definition round_div (a b : Z) : spec_float :=
  match a, b with
  | Z0, Zneg _ => S754_zero true
  | Z0, _ => S754_zero false
  | Zpos p, Zpos q => SFdiv prec emax (S754_finite false p 0) (S754_finite false q 0)
  | Zpos p, Zneg q => SFdiv prec emax (S754_finite false p 0) (S754_finite true q 0)
  | Zneg p, Zpos q => SFdiv prec emax (S754_finite true p 0) (S754_finite false q 0)
  | Zneg p, Zneg q => SFdiv prec emax (S754_finite true p 0) (S754_finite true q 0)
  | _, Z0 => S754_nan
  end.

Definition int_true_divide (a b : Z) : res float :=
  if b =? 0 then Raise ZeroDivisionError
  else match round_div a b with
       | S754_infinity _ => Raise OverflowError
       | sf => Ret (SF2Prim sf)
       end.

(** A finite float as an exact integer when it is one ([float.is_integer]
    and [int(x)]). *)
Definition float_integral (x : float) : option Z :=
  match Prim2SF x with
  | S754_zero _ => Some 0
  | S754_finite s m e =>
      let n := if s then Z.neg m else Z.pos m in
      if 0 <=? e then Some (n * 2 ^ e)
      else if (Z.pos m) mod 2 ^ (- e) =? 0 then Some (n / 2 ^ (- e))
      else None
  | _ => None
  end.

(** [copysign(0.0, y)] *)
Definition zero_with_sign_of (y : float) : float :=
  if get_sign y then neg_zero else zero.

(** *** Float arithmetic ([floatobject.c]) *)

Local Open Scope float_scope.

(** C's [fmod], which is exact: the remainder of the truncated quotient,
    with the sign of [x]. *)
Definition fmod (x y : float) : float :=
  match Prim2SF x, Prim2SF y with
  | S754_nan, _ | _, S754_nan => nan
  | S754_infinity _, _ | _, S754_zero _ => nan
  | S754_zero _, _ | _, S754_infinity _ => x
  | S754_finite sx mx ex, S754_finite _ my ey =>
      let e := Z.min ex ey in
      let r := Z.rem (Z.pos mx * 2 ^ (ex - e)) (Z.pos my * 2 ^ (ey - e)) in
      SF2Prim (binary_normalize prec emax (if sx then Z.opp r else r) e sx)
  end.

(** C's [floor] of a finite float, as a float. *)
Definition floor_float (x : float) : float :=
  match Prim2SF x with
  | S754_finite s m e =>
      if (0 <=? e)%Z then x
      else SF2Prim (binary_normalize prec emax
                      ((if s then Z.neg m else Z.pos m) / 2 ^ (- e)) 0 s)
  | _ => x
  end.

(** [DOUBLE_IS_ODD_INTEGER] *)
Definition float_is_odd_integer (x : float) : bool :=
  match float_integral x with
  | Some n => Z.odd n
  | None => false
  end.

Definition float_div (x y : float) : res float :=
  if y =? 0 then Raise ZeroDivisionError else Ret (x / y).

(** [float_rem]: the remainder takes the sign of the divisor. *)
Definition float_rem (vx wx : float) : res float :=
  if wx =? 0 then Raise ZeroDivisionError
  else
    let md := fmod vx wx in
    if negb (md =? 0) then
      Ret (if negb (Bool.eqb (wx <? 0) (md <? 0)) then md + wx else md)
    else Ret (zero_with_sign_of wx).

(** [float_floor_div], through [_float_div_mod]. *)
Definition float_floor_div (vx wx : float) : res float :=
  if wx =? 0 then Raise ZeroDivisionError
  else
    let md := fmod vx wx in
    let dv := (vx - md) / wx in
    let dv :=
      if negb (md =? 0) && negb (Bool.eqb (wx <? 0) (md <? 0))
      then dv - 1 else dv in
    if negb (dv =? 0) then
      let fl := floor_float dv in
      Ret (if 0.5 <? dv - fl then fl + 1 else fl)
    else Ret (zero_with_sign_of (vx / wx)).

(** *** The C library *)

(** The transcendental functions of the platform's C library, which CPython
    calls and whose results are not fixed by IEEE-754.  A range or domain
    error is read off the result (infinite or NaN), as CPython does where
    [errno] is not set. *)
Record Libm : Type := {
  c_sin : float -> float;
  c_cos : float -> float;
  c_tan : float -> float;
  c_asin : float -> float;
  c_acos : float -> float;
  c_atan : float -> float;
  c_atan2 : float -> float -> float;
  c_hypot : float -> float -> float;
  c_log : float -> float;
  c_log10 : float -> float;
  c_exp : float -> float;
  c_pow : float -> float -> float
}.

Section WithLibm.

Variable lm : Libm.

(** *** Complex arithmetic ([complexobject.c]) *)

Definition complex : Type := (float * float)%type.

Definition c_sum (a b : complex) : complex :=
  (fst a + fst b, snd a + snd b).

Definition c_diff (a b : complex) : complex :=
  (fst a - fst b, snd a - snd b).

Definition c_prod (a b : complex) : complex :=
  (fst a * fst b - snd a * snd b, fst a * snd b + snd a * fst b).

(** [_Py_c_quot]; its [EDOM] becomes ZeroDivisionError in every caller. *)
Definition c_quot (a b : complex) : res complex :=
  let abs_breal := if fst b <? 0 then - fst b else fst b in
  let abs_bimag := if snd b <? 0 then - snd b else snd b in
  if abs_bimag <=? abs_breal then
    if abs_breal =? 0 then Raise ZeroDivisionError
    else
      let ratio := snd b / fst b in
      let denom := fst b + snd b * ratio in
      Ret ((fst a + snd a * ratio) / denom, (snd a - fst a * ratio) / denom)
  else if abs_breal <=? abs_bimag then
    let ratio := fst b / snd b in
    let denom := fst b * ratio + snd b in
    Ret ((fst a * ratio + snd a) / denom, (snd a * ratio - fst a) / denom)
  else Ret (nan, nan).

(** [c_powu]: binary exponentiation, [bits] bounding the loop. *)
Fixpoint c_powu (bits : nat) (r p : complex) (n mask : Z) : complex :=
  match bits with
  | O => r
  | S bits' =>
      if (mask <=? n)%Z then
        c_powu bits' (if Z.eqb (Z.land n mask) 0 then r else c_prod r p)
               (c_prod p p) n (2 * mask)
      else r
  end.

Definition c_powi (x : complex) (n : Z) : res complex :=
  if (0 <? n)%Z then Ret (c_powu 64 (1, 0) x n 1)
  else c_quot (1, 0) (c_powu 64 (1, 0) x (- n) 1).

(** [_Py_c_pow] *)
Definition c_pow_general (a b : complex) : res complex :=
  if (fst b =? 0) && (snd b =? 0) then Ret (1, 0)
  else if (fst a =? 0) && (snd a =? 0) then
    if negb (snd b =? 0) || (fst b <? 0) then Raise ZeroDivisionError
    else Ret (0, 0)
  else
    let vabs := c_hypot lm (fst a) (snd a) in
    let len := c_pow lm vabs (fst b) in
    let at_ := c_atan2 lm (snd a) (fst a) in
    let phase := at_ * fst b in
    let '(len, phase) :=
      if negb (snd b =? 0)
      then (len / c_exp lm (at_ * snd b), phase + snd b * c_log lm vabs)
      else (len, phase) in
    Ret (len * c_cos lm phase, len * c_sin lm phase).

(** [complex_pow]: a small integral exponent takes the exact route; an
    infinite component of the result is an overflow. *)
Definition complex_pow (a b : complex) : res complex :=
  p <- (match float_integral (fst b) with
        | Some n =>
            if (snd b =? 0) && (Z.abs n <=? 100)%Z then c_powi a n
            else c_pow_general a b
        | None => c_pow_general a b
        end) ;;
  if is_infinity (fst p) || is_infinity (snd p) then Raise OverflowError
  else Ret p.

(** [float_pow]: the special cases are sorted out before [pow] is called; a
    negative base with a fractional exponent is handed to [complex_pow]. *)
Definition float_pow (iv iw : float) : res value :=
  if iw =? 0 then Ret (VFloat 1)
  else if is_nan iv then Ret (VFloat iv)
  else if is_nan iw then Ret (VFloat (if iv =? 1 then 1 else iw))
  else if is_infinity iw then
    let av := abs iv in
    if av =? 1 then Ret (VFloat 1)
    else if Bool.eqb (0 <? iw) (1 <? av) then Ret (VFloat (abs iw))
    else Ret (VFloat 0)
  else if is_infinity iv then
    let odd := float_is_odd_integer iw in
    if 0 <? iw then Ret (VFloat (if odd then iv else abs iv))
    else Ret (VFloat (if odd then zero_with_sign_of iv else 0))
  else if iv =? 0 then
    if iw <? 0 then Raise ZeroDivisionError
    else Ret (VFloat (if float_is_odd_integer iw then iv else 0))
  else
    match (if iv <? 0 then float_integral iw else Some 0%Z) with
    | None =>
        p <- complex_pow (iv, 0) (iw, 0) ;; Ret (VComplex (fst p) (snd p))
    | Some _ =>
        let negate_result := (iv <? 0) && float_is_odd_integer iw in
        let iv := if iv <? 0 then - iv else iv in
        if iv =? 1 then Ret (VFloat (if negate_result then -1 else 1))
        else
          let ix := c_pow lm iv iw in
          if is_infinity ix then Raise OverflowError
          else Ret (VFloat (if negate_result then - ix else ix))
    end.

(** *** Integer arithmetic ([longobject.c]) *)

(** [long_pow]: a negative exponent gives a float. *)
Definition int_pow (a b : Z) : res value :=
  if (0 <=? b)%Z then Ret (VInt (a ^ b))
  else x <- to_double a ;; y <- to_double b ;; float_pow x y.

(** *** The binary operators of the [operator] module *)

Definition as_double (n : num) : res float :=
  match n with
  | NInt k => to_double k
  | NFloat x => Ret x
  | NComplex _ _ => Raise TypeError
  end.

Definition as_complex (n : num) : res complex :=
  match n with
  | NInt k => x <- to_double k ;; Ret (x, 0)
  | NFloat x => Ret (x, 0)
  | NComplex re im => Ret (re, im)
  end.

Definition ret_float (r : res float) : res value :=
  x <- r ;; Ret (VFloat x).

Definition ret_complex (r : res complex) : res value :=
  p <- r ;; Ret (VComplex (fst p) (snd p)).

(** Two operands meet in the widest of their kinds: [int] below [float]
    below [complex].  An operator that complex numbers do not have is a
    TypeError as soon as one operand is complex. *)
Definition arith (on_int : Z -> Z -> res value)
                 (on_float : float -> float -> res value)
                 (on_complex : option (complex -> complex -> res value))
                 (v w : value) : res value :=
  match num_of v, num_of w with
  | NInt a, NInt b => on_int a b
  | NComplex _ _, _ | _, NComplex _ _ =>
      match on_complex with
      | Some f =>
          a <- as_complex (num_of v) ;; b <- as_complex (num_of w) ;; f a b
      | None => Raise TypeError
      end
  | _, _ =>
      x <- as_double (num_of v) ;; y <- as_double (num_of w) ;;
      on_float x y
  end.

Definition op_add : value -> value -> res value :=
  arith (fun a b => Ret (VInt (a + b)))
        (fun x y => Ret (VFloat (x + y)))
        (Some (fun a b => ret_complex (Ret (c_sum a b)))).

Definition op_sub : value -> value -> res value :=
  arith (fun a b => Ret (VInt (a - b)))
        (fun x y => Ret (VFloat (x - y)))
        (Some (fun a b => ret_complex (Ret (c_diff a b)))).

Definition op_mul : value -> value -> res value :=
  arith (fun a b => Ret (VInt (a * b)))
        (fun x y => Ret (VFloat (x * y)))
        (Some (fun a b => ret_complex (Ret (c_prod a b)))).

Definition op_truediv : value -> value -> res value :=
  arith (fun a b => ret_float (int_true_divide a b))
        (fun x y => ret_float (float_div x y))
        (Some (fun a b => ret_complex (c_quot a b))).

Definition op_floordiv : value -> value -> res value :=
  arith (fun a b => if (b =? 0)%Z then Raise ZeroDivisionError
                    else Ret (VInt (a / b)))
        (fun x y => ret_float (float_floor_div x y))
        None.

Definition op_mod : value -> value -> res value :=
  arith (fun a b => if (b =? 0)%Z then Raise ZeroDivisionError
                    else Ret (VInt (a mod b)))
        (fun x y => ret_float (float_rem x y))
        None.

Definition op_pow : value -> value -> res value :=
  arith int_pow float_pow (Some (fun a b => ret_complex (complex_pow a b))).

(** *** The [math] module ([mathmodule.c]) and the builtin [abs] *)

(** [PyFloat_AsDouble] on an argument. *)
Definition arg_double (v : value) : res float := as_double (num_of v).

(** A function of exactly one argument; any other count is a TypeError. *)
Definition unary (body : value -> res value) (args : list value) : res value :=
  match args with
  | [v] => body v
  | _ => Raise TypeError
  end.

(** [math_1]: a NaN from a number is a domain error, an infinity from a
    finite number a range error (or a domain error where the function
    cannot overflow). *)
Definition math_1 (func : float -> float) (can_overflow : bool) (x : float)
  : res float :=
  let r := func x in
  if is_nan r && negb (is_nan x) then Raise ValueError
  else if is_infinity r && is_finite x then
    Raise (if can_overflow then OverflowError else ValueError)
  else Ret r.

Definition FUNC1 (func : float -> float) (can_overflow : bool)
  : list value -> res value :=
  unary (fun v => x <- arg_double v ;; ret_float (math_1 func can_overflow x)).

(** [m_log] and [m_log10]: the C function on the positive finite numbers,
    the IEEE special values elsewhere. *)
Definition m_log (clog : float -> float) (x : float) : float :=
  if is_finite x then
    if 0 <? x then clog x
    else if x =? 0 then neg_infinity else nan
  else if is_nan x then x
  else if 0 <? x then x
  else nan.

(** [_PyLong_Frexp] of a positive integer: the fraction in [[0.5, 1)]
    rounded to 53 bits, and the exponent. *)
Definition long_frexp (n : Z) : float * Z :=
  let e := (Z.log2 n + 1)%Z in
  let x := SF2Prim (round_div n (2 ^ e)) in
  if x =? 1 then (0.5, (e + 1)%Z) else (x, e).

(** [loghelper]: an integer argument must be positive and may exceed the
    range of a double; any other argument goes through [math_1]. *)
Definition loghelper (func : float -> float) (v : value) : res float :=
  match num_of v with
  | NInt n =>
      if (n <=? 0)%Z then Raise ValueError
      else match to_double n with
           | Ret x => Ret (func x)
           | Raise _ =>
               let '(x, e) := long_frexp n in
               Ret (func x
                    + func 2 * SF2Prim (binary_normalize prec emax e 0 false))
           end
  | _ => x <- arg_double v ;; math_1 func false x
  end.

(** [math.log(x[, base])] *)
Definition math_log (args : list value) : res value :=
  match args with
  | [x] => ret_float (loghelper (m_log (c_log lm)) x)
  | [x; base] =>
      num <- loghelper (m_log (c_log lm)) x ;;
      den <- loghelper (m_log (c_log lm)) base ;;
      ret_float (float_div num den)
  | _ => Raise TypeError
  end.

Definition math_log10 : list value -> res value :=
  unary (fun v => ret_float (loghelper (m_log (c_log10 lm)) v)).

(** [math.pow(x, y)] *)
Definition math_pow (args : list value) : res value :=
  match args with
  | [vx; vy] =>
      x <- arg_double vx ;; y <- arg_double vy ;;
      if negb (is_finite x) || negb (is_finite y) then
        Ret (VFloat
          (if is_nan x then (if y =? 0 then 1 else x)
           else if is_nan y then (if x =? 1 then 1 else y)
           else if is_infinity x then
             let odd_y := is_finite y && float_is_odd_integer y in
             if 0 <? y then (if odd_y then x else abs x)
             else if y =? 0 then 1
             else (if odd_y then zero_with_sign_of x else 0)
           else
             if abs x =? 1 then 1
             else if (0 <? y) && (1 <? abs x) then y
             else if (y <? 0) && (abs x <? 1) then - y
             else 0))
      else
        let r := c_pow lm x y in
        if is_nan r then Raise ValueError
        else if is_infinity r then
          Raise (if x =? 0 then ValueError else OverflowError)
        else Ret (VFloat r)
  | _ => Raise TypeError
  end.

(** [_Py_c_abs] and [complex_abs] *)
Definition complex_abs (re im : float) : res float :=
  if negb (is_finite re) || negb (is_finite im) then
    Ret (if is_infinity re then abs re
         else if is_infinity im then abs im
         else nan)
  else
    let r := c_hypot lm re im in
    if is_finite r then Ret r else Raise OverflowError.

Definition builtin_abs : list value -> res value :=
  unary (fun v =>
    match num_of v with
    | NInt n => Ret (VInt (Z.abs n))
    | NFloat x => Ret (VFloat (abs x))
    | NComplex re im => ret_float (complex_abs re im)
    end).

(** [PyLong_FromDouble] of the floor or of the ceiling. *)
Definition float_to_int (up : bool) (x : float) : res Z :=
  match Prim2SF x with
  | S754_nan => Raise ValueError
  | S754_infinity _ => Raise OverflowError
  | S754_zero _ => Ret 0%Z
  | S754_finite s m e =>
      let n := if s then Z.neg m else Z.pos m in
      Ret (if (0 <=? e)%Z then n * 2 ^ e
           else if up then - ((- n) / 2 ^ (- e))
           else n / 2 ^ (- e))%Z
  end.

Definition math_round (up : bool) : list value -> res value :=
  unary (fun v =>
    match num_of v with
    | NInt n => Ret (VInt n)
    | NFloat x => n <- float_to_int up x ;; Ret (VInt n)
    | NComplex _ _ => Raise TypeError
    end).

Definition math_floor : list value -> res value := math_round false.
Definition math_ceil : list value -> res value := math_round true.

Fixpoint factorial_nat (k : nat) : Z :=
  match k with
  | O => 1
  | S k' => Z.of_nat k * factorial_nat k'
  end.

Definition LONG_MAX : Z := 2 ^ 63 - 1.

(** [math.factorial]: an integer only; beyond [LONG_MAX] an OverflowError,
    below zero a ValueError. *)
Definition math_factorial : list value -> res value :=
  unary (fun v =>
    match num_of v with
    | NInt n =>
        if (LONG_MAX <? n)%Z then Raise OverflowError
        else if (n <? 0)%Z then Raise ValueError
        else Ret (VInt (factorial_nat (Z.to_nat n)))
    | _ => Raise TypeError
    end).

(** [math.pi] and [math.e] *)
Definition math_pi : float := 0x1.921fb54442d18p+1.
Definition math_e : float := 0x1.5bf0a8b145769p+1.

Definition degToRad : float := math_pi / 180.
Definition radToDeg : float := 180 / math_pi.

Definition math_radians : list value -> res value :=
  unary (fun v => x <- arg_double v ;; Ret (VFloat (x * degToRad))).

Definition math_degrees : list value -> res value :=
  unary (fun v => x <- arg_double v ;; Ret (VFloat (x * radToDeg))).

End WithLibm.

End Py.

(** ** Expression trees of the [ast] module *)

Module Ast.

(** The binary and unary operator classes. *)
Inductive operator : Type :=
| Add | Sub | Mult | MatMult | Div | Mod | Pow
| LShift | RShift | BitOr | BitXor | BitAnd | FloorDiv.

Inductive unaryop : Type :=
| Invert | Not | UAdd | USub.

(** The value of a [Constant] node.  A complex constant comes from an
    imaginary literal. *)
Inductive constant : Type :=
| CInt (n : Z)
| CFloat (x : float)
| CComplex (re im : float)
| CStr (s : string)
| CBytes (s : string)
| CBool (b : bool)
| CNone
| CEllipsis.

(** The expression classes the evaluator has no branch for and that carry
    nothing but sub-expressions as far as it is concerned. *)
Inductive other_class : Type :=
| BoolOp | NamedExpr | IfExp | Dict | Set_ | ListComp | SetComp | DictComp
| GeneratorExp | Await | Yield | YieldFrom | Compare | FormattedValue
| JoinedStr | List_ | Tuple | Slice.

(** An expression node.  A keyword argument is its name ([None] for
    [**kwargs]) and its value; of a lambda the default values of the
    parameters and the body are kept; a node of an [other_class] keeps its
    sub-expressions in source order. *)
Inductive expr : Type :=
| Constant (value : constant)
| Name (id : string)
| BinOp (left : expr) (op : operator) (right : expr)
| UnaryOp (op : unaryop) (operand : expr)
| Call (func : expr) (args : list expr) (keywords : list (option string * expr))
| Attribute (value : expr) (attr : string)
| Subscript (value : expr) (slice : expr)
| Lambda (defaults : list expr) (body : expr)
| Starred (value : expr)
| Other (cls : other_class) (children : list expr).

(** The root that [ast.parse(_, mode="eval")] returns. *)
Inductive root : Type :=
| Expression (body : expr).

(** [ast.walk] restricted to the expression nodes below a node, the node
    itself first.  (The statement classes cannot occur below an
    [Expression]; operator, context and keyword nodes are of none of the
    classes [safe_eval] looks for.  The order differs from the breadth-first
    one of [ast.walk], which no caller here depends on.) *)
Fixpoint walk (node : expr) : list expr :=
  node ::
  match node with
  | Constant _ | Name _ => []
  | BinOp left_ _ right_ => walk left_ ++ walk right_
  | UnaryOp _ operand => walk operand
  | Call func args keywords =>
      walk func ++ flat_map walk args
        ++ flat_map (fun kw => walk (snd kw)) keywords
  | Attribute value _ => walk value
  | Subscript value slice => walk value ++ walk slice
  | Lambda defaults body => flat_map walk defaults ++ walk body
  | Starred value => walk value
  | Other _ children => flat_map walk children
  end.

End Ast.

(** ** The host parser on the calculator's input language *)

(** An association list read as a dictionary. *)
Fixpoint lookup {A : Type} (key : string) (table : list (string * A))
  : option A :=
  match table with
  | [] => None
  | (k, a) :: rest => if String.eqb key k then Some a else lookup key rest
  end.

(** [ast.parse(text, mode="eval")] is a function of the host, not of app.py.
    [Parser.ast_parse] models it on single-line text over this grammar, with
    the host's precedences and associativities:

    - numbers in every literal form of the language (decimal, [0x], [0o],
      [0b], single underscores between digits, fraction, exponent, imaginary
      suffix), names, [True], [False], [None], [...], and one-line string
      literals without prefix and without backslash;
    - parentheses, attribute access, subscription by one expression, calls
      with positional arguments followed by keyword arguments;
    - [**], unary [+ - ~], [* / // % @], [+ -], [<< >>], [&], [^], [|],
      comparisons (chained), [not], [and], [or], the conditional expression,
      and [lambda] with plain parameter names.

    [None] is the SyntaxError of the host.  Text that uses anything else
    (displays, comprehensions, starred arguments, string prefixes, line
    breaks, comments, characters outside ASCII, a call that repeats a
    keyword name, a number with a keyword right behind it) is outside the
    model and is answered with [None] as well; the theorems that speak of
    every input are therefore stated over trees, and the ones over text use
    the grammar above only.  The host's limit on the digits of a decimal
    literal (4300 unless configured otherwise) is one of the limits that
    are not modelled. *)
Module Parser.

Import Py Ast.

Inductive token : Type :=
| NUMBER (value : constant)
| NAME (id : string)
| STRING (s : string)
| OP (s : string).

Definition code (c : ascii) : Z := Z.of_N (N_of_ascii c).

Definition is_digit (c : ascii) : bool :=
  (48 <=? code c) && (code c <=? 57).

Definition is_name_start (c : ascii) : bool :=
  let k := code c in
  ((97 <=? k) && (k <=? 122)) || ((65 <=? k) && (k <=? 90)) || (k =? 95).

Definition is_name_char (c : ascii) : bool :=
  is_name_start c || is_digit c.

(** The value of a digit in a base, when it is one. *)
Definition digit_value (base : Z) (c : ascii) : option Z :=
  let k := code c in
  let d := if (48 <=? k) && (k <=? 57) then k - 48
           else if (97 <=? k) && (k <=? 102) then k - 87
           else if (65 <=? k) && (k <=? 70) then k - 55
           else base in
  if d <? base then Some d else None.

(** [(["_"] digit)*] after a first digit: the value, the number of digits
    read, the rest.  An underscore that no digit follows is an error. *)
Fixpoint digits (base acc : Z) (count : nat) (cs : list ascii)
  : option (Z * nat * list ascii) :=
  match cs with
  | [] => Some (acc, count, [])
  | c :: rest =>
      match digit_value base c with
      | Some d => digits base (acc * base + d) (S count) rest
      | None =>
          if (code c =? 95) then
            match rest with
            | c' :: rest' =>
                match digit_value base c' with
                | Some d => digits base (acc * base + d) (S count) rest'
                | None => None
                end
            | [] => None
            end
          else Some (acc, count, cs)
      end
  end.

(** [digit (["_"] digit)*] *)
Definition digitpart (base : Z) (cs : list ascii)
  : option (Z * nat * list ascii) :=
  match cs with
  | c :: rest =>
      match digit_value base c with
      | Some d => digits base d 1 rest
      | None => None
      end
  | [] => None
  end.

Definition starts_with_digit (cs : list ascii) : bool :=
  match cs with
  | c :: _ => is_digit c
  | [] => false
  end.

(** The double nearest to [m * 10 ^ e10]. *)
Definition decimal_to_float (m e10 : Z) : float :=
  SF2Prim (if 0 <=? e10 then binary_normalize prec emax (m * 10 ^ e10) 0 false
           else round_div m (10 ^ (- e10))).

(** No name character may follow a number. *)
Definition end_of_number (c : constant) (cs : list ascii)
  : option (constant * list ascii) :=
  match cs with
  | c' :: _ => if is_name_char c' then None else Some (c, cs)
  | [] => Some (c, cs)
  end.

Definition radix (c : ascii) : option Z :=
  let k := code c in
  if (k =? 120) || (k =? 88) then Some 16
  else if (k =? 111) || (k =? 79) then Some 8
  else if (k =? 98) || (k =? 66) then Some 2
  else None.

(** The fraction, the exponent and the imaginary suffix after the integer
    part [ip] of a decimal literal ([has_ip]: it has digits; [zero_led]: it
    starts with 0). *)
Definition lex_decimal_rest (has_ip zero_led : bool) (ip : Z)
  (cs : list ascii) : option (constant * list ascii) :=
  let fraction :=
    match cs with
    | "."%char :: rest =>
        if starts_with_digit rest then
          match digitpart 10 rest with
          | Some (fp, n, rest') => Some (true, fp, n, rest')
          | None => None
          end
        else if has_ip then Some (true, 0, O, rest) else None
    | _ => Some (false, 0, O, cs)
    end in
  match fraction with
  | None => None
  | Some (has_point, fp, nfrac, cs1) =>
      let exponent :=
        match cs1 with
        | e :: rest =>
            if (code e =? 101) || (code e =? 69) then
              match rest with
              | "+"%char :: rest' =>
                  if starts_with_digit rest' then
                    match digitpart 10 rest' with
                    | Some (x, _, r) => Some (true, x, r)
                    | None => None
                    end
                  else Some (false, 0, cs1)
              | "-"%char :: rest' =>
                  if starts_with_digit rest' then
                    match digitpart 10 rest' with
                    | Some (x, _, r) => Some (true, - x, r)
                    | None => None
                    end
                  else Some (false, 0, cs1)
              | _ =>
                  if starts_with_digit rest then
                    match digitpart 10 rest with
                    | Some (x, _, r) => Some (true, x, r)
                    | None => None
                    end
                  else Some (false, 0, cs1)
              end
            else Some (false, 0, cs1)
        | [] => Some (false, 0, cs1)
        end in
      match exponent with
      | None => None
      | Some (has_exp, ex, cs2) =>
          let m := ip * 10 ^ Z.of_nat nfrac + fp in
          let x := decimal_to_float m (ex - Z.of_nat nfrac) in
          match cs2 with
          | j :: rest =>
              if (code j =? 106) || (code j =? 74)
              then end_of_number (CComplex 0 x) rest
              else if has_point || has_exp then end_of_number (CFloat x) cs2
              else if zero_led && negb (ip =? 0) then None
              else end_of_number (CInt ip) cs2
          | [] =>
              if has_point || has_exp then Some (CFloat x, [])
              else if zero_led && negb (ip =? 0) then None
              else Some (CInt ip, [])
          end
      end
  end.

(** A numeric literal at the head of the text. *)
Definition lex_number (cs : list ascii) : option (constant * list ascii) :=
  match cs with
  | "0"%char :: x :: rest =>
      match radix x with
      | Some base =>
          let rest := match rest with
                      | "_"%char :: r => r
                      | _ => rest
                      end in
          match digitpart base rest with
          | Some (n, _, rest') => end_of_number (CInt n) rest'
          | None => None
          end
      | None =>
          match digitpart 10 cs with
          | Some (ip, _, rest') => lex_decimal_rest true true ip rest'
          | None => None
          end
      end
  | "."%char :: _ => lex_decimal_rest false false 0 cs
  | c :: _ =>
      match digitpart 10 cs with
      | Some (ip, _, rest') => lex_decimal_rest true (code c =? 48) ip rest'
      | None => None
      end
  | [] => None
  end.

Fixpoint lex_name (acc : list ascii) (cs : list ascii) : string * list ascii :=
  match cs with
  | c :: rest =>
      if is_name_char c then lex_name (c :: acc) rest
      else (string_of_list_ascii (rev acc), cs)
  | [] => (string_of_list_ascii (rev acc), [])
  end.

(** The body of a string literal up to the closing [quote]. *)
Fixpoint lex_string (quote : ascii) (acc : list ascii) (cs : list ascii)
  : option (string * list ascii) :=
  match cs with
  | c :: rest =>
      if Ascii.eqb c quote then Some (string_of_list_ascii (rev acc), rest)
      else if (code c =? 92) || (code c <? 32) || (126 <? code c) then None
      else lex_string quote (c :: acc) rest
  | [] => None
  end.

Definition two_char_ops : list string :=
  ["**"; "//"; "<<"; ">>"; "<="; ">="; "=="; "!="; ":="].

Definition one_char_ops : list string :=
  ["+"; "-"; "*"; "/"; "%"; "@"; "&"; "|"; "^"; "~"; "<"; ">";
   "("; ")"; "["; "]"; ","; ":"; "."; "="].

Definition mem (s : string) (l : list string) : bool :=
  existsb (String.eqb s) l.

Fixpoint tokenize (fuel : nat) (cs : list ascii) : option (list token) :=
  match fuel with
  | O => None
  | S fuel' =>
      match cs with
      | [] => Some []
      | c :: rest =>
          let continue (t : token) (cs' : list ascii) :=
            match tokenize fuel' cs' with
            | Some ts => Some (t :: ts)
            | None => None
            end in
          if (code c =? 32) || (code c =? 9) then tokenize fuel' rest
          else if is_digit c
                  || ((code c =? 46) && starts_with_digit rest) then
            match lex_number cs with
            | Some (v, cs') => continue (NUMBER v) cs'
            | None => None
            end
          else if is_name_start c then
            let '(id, cs') := lex_name [] cs in
            match cs' with
            | q :: _ =>
                if (code q =? 34) || (code q =? 39) then None
                else continue (NAME id) cs'
            | [] => continue (NAME id) cs'
            end
          else if (code c =? 34) || (code c =? 39) then
            match lex_string c [] rest with
            | Some (s, cs') => continue (STRING s) cs'
            | None => None
            end
          else
            match rest with
            | "."%char :: "."%char :: rest' =>
                if code c =? 46 then continue (OP "...") rest'
                else if mem (String c EmptyString) one_char_ops
                then continue (OP (String c EmptyString)) rest
                else None
            | c' :: rest' =>
                if mem (String c (String c' EmptyString)) two_char_ops
                then continue (OP (String c (String c' EmptyString))) rest'
                else if mem (String c EmptyString) one_char_ops
                then continue (OP (String c EmptyString)) rest
                else None
            | [] =>
                if mem (String c EmptyString) one_char_ops
                then continue (OP (String c EmptyString)) rest
                else None
            end
      end
  end.

(** The text as tokens.  Leading white space is an unexpected indent. *)
Definition tokens_of (text : string) : option (list token) :=
  match list_ascii_of_string text with
  | (c :: _) as cs =>
      if (code c =? 32) || (code c =? 9) then None
      else tokenize (S (List.length cs)) cs
  | [] => Some []
  end.

Definition keywords : list string :=
  ["False"; "None"; "True"; "and"; "as"; "assert"; "async"; "await";
   "break"; "class"; "continue"; "def"; "del"; "elif"; "else"; "except";
   "finally"; "for"; "from"; "global"; "if"; "import"; "in"; "is";
   "lambda"; "nonlocal"; "not"; "or"; "pass"; "raise"; "return"; "try";
   "while"; "with"; "yield"].

Definition is_kw (s : string) (t : token) : bool :=
  match t with
  | NAME s' => String.eqb s s'
  | _ => false
  end.

Definition parser : Type := list token -> option (expr * list token).

(** [operand (op operand)*], associating to the left. *)
Fixpoint binary_loop (n : nat) (operand : parser)
  (ops : list (string * operator)) (acc : expr) (ts : list token)
  : option (expr * list token) :=
  match n, ts with
  | S n', OP s :: rest =>
      match lookup s ops with
      | Some op =>
          match operand rest with
          | Some (r, rest') => binary_loop n' operand ops (BinOp acc op r) rest'
          | None => None
          end
      | None => Some (acc, ts)
      end
  | _, _ => Some (acc, ts)
  end.

Definition binary_level (operand : parser) (ops : list (string * operator))
  : parser :=
  fun ts =>
    match operand ts with
    | Some (l, rest) => binary_loop (List.length rest) operand ops l rest
    | None => None
    end.

(** [(kw operand)*]: the further operands of [and] and [or]. *)
Fixpoint keyword_loop (n : nat) (operand : parser) (kw : string)
  (ts : list token) : option (list expr * list token) :=
  match n, ts with
  | S n', t :: rest =>
      if is_kw kw t then
        match operand rest with
        | Some (e, rest') =>
            match keyword_loop n' operand kw rest' with
            | Some (es, rest'') => Some (e :: es, rest'')
            | None => None
            end
        | None => None
        end
      else Some ([], ts)
  | _, _ => Some ([], ts)
  end.

Definition boolop_level (operand : parser) (kw : string) : parser :=
  fun ts =>
    match operand ts with
    | Some (e, rest) =>
        match keyword_loop (List.length rest) operand kw rest with
        | Some ([], rest') => Some (e, rest')
        | Some (es, rest') => Some (Other BoolOp (e :: es), rest')
        | None => None
        end
    | None => None
    end.

(** A comparison operator at the head of the tokens, and what follows it. *)
Definition compare_op (ts : list token) : option (list token) :=
  match ts with
  | OP s :: rest =>
      if mem s ["<"; ">"; "<="; ">="; "=="; "!="] then Some rest else None
  | NAME "in" :: rest => Some rest
  | NAME "not" :: NAME "in" :: rest => Some rest
  | NAME "is" :: NAME "not" :: rest => Some rest
  | NAME "is" :: rest => Some rest
  | _ => None
  end.

Fixpoint compare_loop (n : nat) (operand : parser) (ts : list token)
  : option (list expr * list token) :=
  match n with
  | S n' =>
      match compare_op ts with
      | Some rest =>
          match operand rest with
          | Some (e, rest') =>
              match compare_loop n' operand rest' with
              | Some (es, rest'') => Some (e :: es, rest'')
              | None => None
              end
          | None => None
          end
      | None => Some ([], ts)
      end
  | O => Some ([], ts)
  end.

(** The parameter names of a lambda up to the colon. *)
Fixpoint lambda_params (ts : list token) : option (list token) :=
  match ts with
  | OP ":" :: rest => Some rest
  | NAME id :: OP ":" :: rest =>
      if mem id keywords then None else Some rest
  | NAME id :: OP "," :: rest =>
      if mem id keywords then None else lambda_params rest
  | _ => None
  end.

(** The arguments of a call after the opening parenthesis: positional ones,
    then keyword ones; a comma may end the list. *)
Fixpoint arguments (n : nat) (expression : parser) (args : list expr)
  (kws : list (option string * expr)) (ts : list token)
  : option (list expr * list (option string * expr) * list token) :=
  match n with
  | O => None
  | S n' =>
      let after (args : list expr) (kws : list (option string * expr))
                (rest : list token) :=
        match rest with
        | OP ")" :: rest' => Some (args, kws, rest')
        | OP "," :: rest' => arguments n' expression args kws rest'
        | _ => None
        end in
      match ts with
      | OP ")" :: rest => Some (args, kws, rest)
      | NAME id :: OP "=" :: rest =>
          if mem id keywords
             || existsb (fun kw => match fst kw with
                                   | Some id' => String.eqb id id'
                                   | None => false
                                   end) kws
          then None
          else
            match expression rest with
            | Some (e, rest') => after args (kws ++ [(Some id, e)])%list rest'
            | None => None
            end
      | _ =>
          match kws with
          | [] =>
              match expression ts with
              | Some (e, rest') => after (args ++ [e])%list kws rest'
              | None => None
              end
          | _ :: _ => None
          end
      end
  end.

(** The trailers of a primary: attribute, call, subscription. *)
Fixpoint trailers (n : nat) (expression : parser) (acc : expr)
  (ts : list token) : option (expr * list token) :=
  match n with
  | O => Some (acc, ts)
  | S n' =>
      match ts with
      | OP "." :: NAME id :: rest =>
          if mem id keywords then None
          else trailers n' expression (Attribute acc id) rest
      | OP "(" :: rest =>
          match arguments (S (List.length rest)) expression [] [] rest with
          | Some (args, kws, rest') =>
              trailers n' expression (Call acc args kws) rest'
          | None => None
          end
      | OP "[" :: rest =>
          match expression rest with
          | Some (e, OP "]" :: rest') =>
              trailers n' expression (Subscript acc e) rest'
          | _ => None
          end
      | _ => Some (acc, ts)
      end
  end.

(** The nonterminals of the grammar, from the loosest to the tightest. *)
Inductive nonterminal : Type :=
| expression | disjunction | conjunction | inversion | comparison
| bitwise_or | bitwise_xor | bitwise_and | shift_expr | sum | term
| factor | power | primary | atom.

Fixpoint parse (fuel : nat) (nt : nonterminal) (ts : list token)
  : option (expr * list token) :=
  match fuel with
  | O => None
  | S fuel' =>
      let sub := parse fuel' in
      match nt with
      | expression =>
          match ts with
          | NAME "lambda" :: rest =>
              match lambda_params rest with
              | Some rest' =>
                  match sub expression rest' with
                  | Some (body, rest'') => Some (Lambda [] body, rest'')
                  | None => None
                  end
              | None => None
              end
          | _ =>
              match sub disjunction ts with
              | Some (body, NAME "if" :: rest) =>
                  match sub disjunction rest with
                  | Some (test, NAME "else" :: rest') =>
                      match sub expression rest' with
                      | Some (orelse, rest'') =>
                          Some (Other IfExp [test; body; orelse], rest'')
                      | None => None
                      end
                  | _ => None
                  end
              | r => r
              end
          end
      | disjunction => boolop_level (sub conjunction) "or" ts
      | conjunction => boolop_level (sub inversion) "and" ts
      | inversion =>
          match ts with
          | NAME "not" :: rest =>
              match sub inversion rest with
              | Some (e, rest') => Some (UnaryOp Not e, rest')
              | None => None
              end
          | _ => sub comparison ts
          end
      | comparison =>
          match sub bitwise_or ts with
          | Some (e, rest) =>
              match compare_loop (List.length rest) (sub bitwise_or) rest with
              | Some ([], rest') => Some (e, rest')
              | Some (es, rest') => Some (Other Compare (e :: es), rest')
              | None => None
              end
          | None => None
          end
      | bitwise_or => binary_level (sub bitwise_xor) [("|", BitOr)] ts
      | bitwise_xor => binary_level (sub bitwise_and) [("^", BitXor)] ts
      | bitwise_and => binary_level (sub shift_expr) [("&", BitAnd)] ts
      | shift_expr =>
          binary_level (sub sum) [("<<", LShift); (">>", RShift)] ts
      | sum => binary_level (sub term) [("+", Add); ("-", Sub)] ts
      | term =>
          binary_level (sub factor)
            [("*", Mult); ("/", Div); ("//", FloorDiv); ("%", Mod);
             ("@", MatMult)] ts
      | factor =>
          match ts with
          | OP s :: rest =>
              match lookup s [("+", UAdd); ("-", USub); ("~", Invert)] with
              | Some op =>
                  match sub factor rest with
                  | Some (e, rest') => Some (UnaryOp op e, rest')
                  | None => None
                  end
              | None => sub power ts
              end
          | _ => sub power ts
          end
      | power =>
          match sub primary ts with
          | Some (base, OP "**" :: rest) =>
              match sub factor rest with
              | Some (e, rest') => Some (BinOp base Pow e, rest')
              | None => None
              end
          | r => r
          end
      | primary =>
          match sub atom ts with
          | Some (a, rest) =>
              trailers (List.length rest) (sub expression) a rest
          | None => None
          end
      | atom =>
          match ts with
          | NUMBER v :: rest => Some (Constant v, rest)
          | STRING s :: rest =>
              match rest with
              | STRING _ :: _ => None
              | _ => Some (Constant (CStr s), rest)
              end
          | NAME "True" :: rest => Some (Constant (CBool true), rest)
          | NAME "False" :: rest => Some (Constant (CBool false), rest)
          | NAME "None" :: rest => Some (Constant CNone, rest)
          | NAME id :: rest =>
              if mem id keywords then None else Some (Name id, rest)
          | OP "..." :: rest => Some (Constant CEllipsis, rest)
          | OP "(" :: rest =>
              match sub expression rest with
              | Some (e, OP ")" :: rest') => Some (e, rest')
              | _ => None
              end
          | _ => None
          end
      end
  end.

(** [ast.parse(text, mode="eval")]: one expression and nothing after it. *)
Definition ast_parse (text : string) : option root :=
  match tokens_of text with
  | Some ts =>
      match parse (16 * S (List.length ts)) expression ts with
      | Some (body, []) => Some (Expression body)
      | _ => None
      end
  | None => None
  end.

End Parser.

(** ** The evaluator of app.py *)

Import Py Ast.

(** [EvalError]: the one exception class of the evaluator.  Each constructor
    is one [raise EvalError(...)] of the source, with what its message is
    formatted from. *)
Inductive EvalError : Type :=
| Only_numeric_constants
| Error_in_operation (e : exc)
| Operator_not_supported (op_type : operator)
| Unary_operator_not_supported (op_type : unaryop)
| Bad_arguments_for (func_name : string) (e : exc)
| Error_calling (func_name : string) (e : exc)
| Function_not_allowed (func_name : string)
| Only_direct_function_names
| Unknown_identifier (id : string)
| Unsupported_expression (node : expr)
| Syntax_error
| Disallowed_Python_construct.

(** A call of the evaluator returns a value or raises [EvalError]. *)
Inductive outcome : Type :=
| Value (v : value)
| Error (e : EvalError).

(** The error kinds of the interface.  The source has no such field: the
    kind of an error is read off the message of the [raise] it comes from. *)
Inductive kind : Type :=
| SyntaxError
| DisallowedConstruct
| UnknownIdentifier
| UnknownFunction
| BadArguments
| OperationError
| TooComplex.

Definition kind_of (e : EvalError) : kind :=
  match e with
  | Syntax_error => SyntaxError
  | Disallowed_Python_construct
  | Only_numeric_constants
  | Operator_not_supported _
  | Unary_operator_not_supported _
  | Only_direct_function_names
  | Unsupported_expression _ => DisallowedConstruct
  | Unknown_identifier _ => UnknownIdentifier
  | Function_not_allowed _ => UnknownFunction
  | Bad_arguments_for _ _ => BadArguments
  | Error_in_operation _
  | Error_calling _ _ => OperationError
  end.

(** [[eval(arg) for arg in args]]: the arguments from left to right; the
    first error ends the evaluation. *)
Section EvalArgs.

Variable eval : expr -> outcome.

Fixpoint eval_args (args : list expr) : EvalError + list value :=
  match args with
  | [] => inr []
  | arg :: rest =>
      match eval arg with
      | Error e => inl e
      | Value v =>
          match eval_args rest with
          | inl e => inl e
          | inr vs => inr (v :: vs)
          end
      end
  end.

End EvalArgs.

Section Evaluator.

Variable lm : Libm.

(** [_allowed_binops] *)
Definition _allowed_binops (op_type : operator)
  : option (value -> value -> res value) :=
  match op_type with
  | Add => Some op_add
  | Sub => Some op_sub
  | Mult => Some op_mul
  | Div => Some op_truediv
  | FloorDiv => Some op_floordiv
  | Mod => Some op_mod
  | Pow => Some (op_pow lm)
  | _ => None
  end.

(** [-x] on a value *)
Definition neg (x : value) : value :=
  match num_of x with
  | NInt n => VInt (- n)
  | NFloat y => VFloat (- y)
  | NComplex re im => VComplex (- re) (- im)
  end.

(** [_allowed_unaryops] *)
Definition _allowed_unaryops (op_type : unaryop) : option (value -> value) :=
  match op_type with
  | UAdd => Some (fun x => x)
  | USub => Some (fun x => neg x)
  | _ => None
  end.

(** [_math_funcs], in the order of the source. *)
Definition _math_funcs_table : list (string * (list value -> res value)) :=
  [ ("sin", FUNC1 (c_sin lm) false);
    ("cos", FUNC1 (c_cos lm) false);
    ("tan", FUNC1 (c_tan lm) false);
    ("asin", FUNC1 (c_asin lm) false);
    ("acos", FUNC1 (c_acos lm) false);
    ("atan", FUNC1 (c_atan lm) false);
    ("sqrt", FUNC1 PrimFloat.sqrt false);
    ("log", math_log lm);
    ("log10", math_log10 lm);
    ("exp", FUNC1 (c_exp lm) true);
    ("pow", math_pow lm);
    ("abs", builtin_abs lm);
    ("floor", math_floor);
    ("ceil", math_ceil);
    ("factorial", math_factorial);
    ("radians", math_radians);
    ("degrees", math_degrees) ].

Definition _math_funcs (func_name : string)
  : option (list value -> res value) :=
  lookup func_name _math_funcs_table.

(** [_constants] *)
Definition _constants_table : list (string * value) :=
  [ ("pi", VFloat math_pi); ("e", VFloat math_e) ].

Definition _constants (id : string) : option value :=
  lookup id _constants_table.

(** [_eval_node] on an expression node.  The branches follow the chain of
    [isinstance] tests; the test for [ast.Num] comes after the one for
    [ast.Constant], which has already returned or raised for every node it
    could hold for, so it has no branch here. *)
Fixpoint _eval_node (node : expr) : outcome :=
  match node with
  | Constant value =>
      match value with
      | CInt n => Value (VInt n)
      | CBool b => Value (VBool b)
      | CFloat x => Value (VFloat x)
      | _ => Error Only_numeric_constants
      end
  | BinOp left_ op right_ =>
      match _eval_node left_ with
      | Error e => Error e
      | Value l =>
          match _eval_node right_ with
          | Error e => Error e
          | Value r =>
              match _allowed_binops op with
              | Some func =>
                  match func l r with
                  | Ret v => Value v
                  | Raise e => Error (Error_in_operation e)
                  end
              | None => Error (Operator_not_supported op)
              end
          end
      end
  | UnaryOp op operand =>
      match _eval_node operand with
      | Error e => Error e
      | Value x =>
          match _allowed_unaryops op with
          | Some func => Value (func x)
          | None => Error (Unary_operator_not_supported op)
          end
      end
  | Call func args _ =>
      match func with
      | Name func_name =>
          match _math_funcs func_name with
          | Some f =>
              match eval_args _eval_node args with
              | inl e => Error e
              | inr vs =>
                  match f vs with
                  | Ret v => Value v
                  | Raise TypeError =>
                      Error (Bad_arguments_for func_name TypeError)
                  | Raise e => Error (Error_calling func_name e)
                  end
              end
          | None => Error (Function_not_allowed func_name)
          end
      | _ => Error Only_direct_function_names
      end
  | Name id =>
      match _constants id with
      | Some v => Value v
      | None => Error (Unknown_identifier id)
      end
  | _ => Error (Unsupported_expression node)
  end.

(** [_eval_node] on the root: an [Expression] is evaluated as its body. *)
Definition _eval_root (parsed : root) : outcome :=
  match parsed with
  | Expression body => _eval_node body
  end.

(** The classes [safe_eval] looks for while walking the tree.  Of the seven
    ([Import], [ImportFrom], [Lambda], [Global], [Nonlocal], [ClassDef],
    [FunctionDef]) only [Lambda] is an expression class. *)
Definition is_disallowed (node : expr) : bool :=
  match node with
  | Lambda _ _ => true
  | _ => false
  end.

(** [safe_eval] after the call of [ast.parse]: [None] stands for the
    SyntaxError it raises. *)
Definition safe_eval_parsed (parsed : option root) : outcome :=
  match parsed with
  | None => Error Syntax_error
  | Some (Expression body as tree) =>
      if existsb is_disallowed (walk body)
      then Error Disallowed_Python_construct
      else _eval_root tree
  end.

(** [safe_eval] *)
Definition safe_eval (text : string) : outcome :=
  safe_eval_parsed (Parser.ast_parse text).

End Evaluator.

(** ** The page of app.py: one run of the script *)

(** The script below the evaluator runs from top to bottom each time the
    page is drawn.  What it reads from the framework is the text of the
    input box and, for each button, whether it was pressed; what it keeps
    between runs is [st.session_state], with the keys [history] and
    [expr_buffer]; what it shows is messages and the lines of the history.
    A run is a function of the session and of the widgets.  The exceptions
    of the host that the evaluator does not turn into [EvalError] are beyond
    the limits that are not modelled, and so is the branch for them. *)

(** The nearest integer to [p / q], ties to the even one ([0 <= p],
    [0 < q]). *)
Definition round_half_even (p q : Z) : Z :=
  let '(d, r) := Z.div_eucl p q in
  match (2 * r ?= q)%Z with
  | Lt => d
  | Gt => (d + 1)%Z
  | Eq => if Z.even d then d else (d + 1)%Z
  end.

(** [10 ^ k <= p / q] *)
Definition pow10_le (k p q : Z) : bool :=
  if (0 <=? k)%Z then (q * 10 ^ k <=? p)%Z else (q <=? p * 10 ^ (- k))%Z.

Fixpoint decimal_exponent_from (fuel : nat) (k p q : Z) : Z :=
  match fuel with
  | O => k
  | S fuel' =>
      if pow10_le (k + 1) p q then decimal_exponent_from fuel' (k + 1) p q
      else k
  end.

(** The decimal exponent of [p / q]: the [k] with
    [10 ^ k <= p / q < 10 ^ (k + 1)], searched upwards from a lower
    estimate that the binary logarithms give. *)
Definition decimal_exponent (p q : Z) : Z :=
  decimal_exponent_from 8
    ((Z.log2 p - Z.log2 q - 1) * 30103 / 100000 - 2)%Z p q.

(** [float(f"{x:.12g}")]: the double nearest to the decimal of twelve
    significant digits nearest to [x], ties to even both times. *)
Definition float_12g (x : float) : float :=
  match Prim2SF x with
  | S754_finite s m e =>
      let p := if (0 <=? e)%Z then (Z.pos m * 2 ^ e)%Z else Z.pos m in
      let q := if (0 <=? e)%Z then 1%Z else (2 ^ (- e))%Z in
      let j := (decimal_exponent p q - 11)%Z in
      let n := if (0 <=? j)%Z then round_half_even p (q * 10 ^ j)
               else round_half_even (p * 10 ^ (- j)) q in
      let y := Parser.decimal_to_float n j in
      if s then - y else y
  | _ => x
  end.

(** [result_display]: a float result is shown with twelve significant
    digits, any other result as it is. *)
Definition result_display (result : value) : value :=
  match result with
  | VFloat x => VFloat (float_12g x)
  | _ => result
  end.

(** The white space that [str.strip] removes, among the ASCII characters. *)
Definition is_space (c : ascii) : bool :=
  let k := Parser.code c in
  ((9 <=? k) && (k <=? 13))%Z || ((28 <=? k) && (k <=? 32))%Z.

(** [not expr or expr.strip() == ""] *)
Definition blank (expr : string) : bool :=
  forallb is_space (list_ascii_of_string expr).

(** [st.session_state].  The script creates [history] empty before it reads
    it, so the missing key and the empty list are one state here;
    [expr_buffer] is [None] while the key is missing. *)
Record session_state : Type := {
  history : list (string * value);
  expr_buffer : option string
}.

(** What the widgets return in a run: the text of the input box and, by
    label, whether a button was pressed. *)
Record widgets : Type := {
  text_input : string;
  button : string -> bool
}.

(** The labels of the keypad, in the order of [buttons], and those of
    [func_buttons]. *)
Definition buttons : list string :=
  ["7"; "8"; "9"; "/"; "4"; "5"; "6"; "*";
   "1"; "2"; "3"; "-"; "0"; "."; "("; ")"].

Definition func_buttons : list string :=
  ["sin("; "cos("; "tan("; "sqrt("].

(** What a run shows above the history. *)
Inductive message : Type :=
| Please_enter_an_expression
| Result (result_display : value)
| Error_message (e : EvalError).

(** The body of the two loops over the buttons: a pressed button appends
    its label to the buffer, which starts from the text when the key is
    missing, and the expression becomes the buffer. *)
Definition press (w : widgets) (state : option string * string)
  (label : string) : option string * string :=
  let '(buffer, expr) := state in
  if button w label then
    let buffer' := (match buffer with
                    | Some b => b
                    | None => expr
                    end ++ label)%string in
    (Some buffer', buffer')
  else state.

(** The buffer, where the key exists and differs from the expression,
    replaces the expression. *)
Definition buffered (state : option string * string) : string :=
  match fst state with
  | Some b => if String.eqb b (snd state) then snd state else b
  | None => snd state
  end.

(** The lines of the history that are shown: the first twenty, numbered
    from 1. *)
Definition shown (h : list (string * value))
  : list (nat * (string * value)) :=
  let first := firstn 20 h in
  combine (seq 1 (List.length first)) first.

(** What a run leaves and shows.  [rerun]: the run was cut short by
    [st.experimental_rerun], and the page is drawn by the run that follows. *)
Record page : Type := {
  session : session_state;
  messages : list message;
  lines : list (nat * (string * value));
  rerun : bool
}.

Section Page.

Variable lm : Libm.

(** The handler of the button "Compute". *)
Definition compute (s : session_state) (expr : string)
  : session_state * list message :=
  if blank expr then (s, [Please_enter_an_expression])
  else
    match safe_eval lm expr with
    | Value result =>
        ({| history := (expr, result_display result) :: history s;
            expr_buffer := Some "" |},
         [Result (result_display result)])
    | Error e => (s, [Error_message e])
    end.

(** One run of the script. *)
Definition run (s : session_state) (w : widgets) : page :=
  let keyed :=
    fold_left (press w) (buttons ++ func_buttons)%list
      (expr_buffer s, text_input w) in
  let expr := buffered keyed in
  let s1 := {| history := history s; expr_buffer := fst keyed |} in
  let '(s2, shown_messages) :=
    if button w "Compute" then compute s1 expr else (s1, []) in
  if button w "Clear" then
    {| session := {| history := history s2; expr_buffer := Some "" |};
       messages := shown_messages; lines := []; rerun := true |}
  else
    let s3 :=
      if button w "Clear History"
      then {| history := []; expr_buffer := expr_buffer s2 |}
      else s2 in
    {| session := s3; messages := shown_messages;
       lines := shown (history s3); rerun := false |}.

(** The runs of a visit, one after the other. *)
Definition runs (s : session_state) (ws : list widgets) : session_state :=
  fold_left (fun s w => session (run s w)) ws s.

End Page.

(** The session of a first visit. *)
Definition first_visit : session_state :=
  {| history := []; expr_buffer := None |}.

(** The widgets of a run in which one button was pressed. *)
Definition pressing (label text : string) : widgets :=
  {| text_input := text; button := String.eqb label |}.

(** ** What the properties speak of *)

Local Open Scope float_scope.

(** The doubles nearest to ln 2, ln 8, ln 10 and ln 100. *)
Definition ln2 : float := 0.6931471805599453.
Definition ln8 : float := 2.0794415416798357.
Definition ln10 : float := 2.302585092994046.
Definition ln100 : float := 4.605170185988092.

(** A table read as a function, NaN off the table. *)
Fixpoint tabulated (table : list (float * float)) (x : float) : float :=
  match table with
  | [] => nan
  | (k, y) :: rest => if k =? x then y else tabulated rest x
  end.

(** A C library for the examples: the correctly rounded values at the
    arguments the examples reach, NaN elsewhere. *)
Definition libm_ref : Libm :=
  {| c_sin := tabulated [(0, 0); (1.5707963267948966, 1)];
     c_cos := tabulated [(0, 1); (1.5707963267948966, 6.123233995736766e-17)];
     c_tan := tabulated [(0, 0)];
     c_asin := tabulated [(0, 0)];
     c_acos := tabulated [(1, 0)];
     c_atan := tabulated [(0, 0)];
     c_atan2 := fun y x =>
       if (y =? 0) && (x <? 0) then math_pi
       else if (y =? 0) && (0 <? x) then 0 else nan;
     c_hypot := fun x y => if y =? 0 then abs x else nan;
     c_log := tabulated [(1, 0); (2, ln2); (8, ln8); (10, ln10); (100, ln100)];
     c_log10 := tabulated [(1, 0); (10, 1); (100, 2)];
     c_exp := tabulated [(0, 1)];
     c_pow := fun x y => if y =? 0.5 then sqrt x else nan |}.

(** A value that is zero: the integer 0, [False], a float zero of either
    sign, a complex number with two such parts. *)
Definition is_zero_value (v : value) : bool :=
  match num_of v with
  | NInt n => (n =? 0)%Z
  | NFloat x => x =? 0
  | NComplex re im => (re =? 0) && (im =? 0)
  end.

(** The three operators that divide. *)
Definition divides (op : operator) : bool :=
  match op with
  | Div | FloorDiv | Mod => true
  | _ => false
  end.

(** The evaluation of a node reaches a division, a floor division or a
    modulo whose right operand has evaluated to zero: at the node itself,
    or in an operand or an argument that is evaluated, everything evaluated
    before it having returned a value. *)
Inductive hits_zero_division (lm : Libm) : expr -> Prop :=
| zd_here (l : expr) (op : operator) (r : expr) (vl vr : value) :
    divides op = true ->
    _eval_node lm l = Value vl ->
    _eval_node lm r = Value vr ->
    is_zero_value vr = true ->
    hits_zero_division lm (BinOp l op r)
| zd_left (l : expr) (op : operator) (r : expr) :
    hits_zero_division lm l ->
    hits_zero_division lm (BinOp l op r)
| zd_right (l : expr) (op : operator) (r : expr) (vl : value) :
    _eval_node lm l = Value vl ->
    hits_zero_division lm r ->
    hits_zero_division lm (BinOp l op r)
| zd_operand (op : unaryop) (x : expr) :
    hits_zero_division lm x ->
    hits_zero_division lm (UnaryOp op x)
| zd_argument (f : string) (before : list expr) (a : expr)
    (after : list expr) (kws : list (option string * expr))
    (vs : list value) :
    _math_funcs lm f <> None ->
    eval_args (_eval_node lm) before = inr vs ->
    hits_zero_division lm a ->
    hits_zero_division lm (Call (Name f) (before ++ a :: after) kws).

(** A node of a class [_eval_node] has no branch for. *)
Definition unsupported_class (node : expr) : bool :=
  match node with
  | Attribute _ _ | Subscript _ _ | Lambda _ _ | Starred _ | Other _ _ => true
  | _ => false
  end.

(** A node of an unsupported class occurs in the tree outside the keyword
    arguments of its calls. *)
Fixpoint unsupported_outside_keywords (node : expr) : bool :=
  match node with
  | Constant _ | Name _ => false
  | BinOp l _ r =>
      unsupported_outside_keywords l || unsupported_outside_keywords r
  | UnaryOp _ x => unsupported_outside_keywords x
  | Call func args _ =>
      unsupported_outside_keywords func
      || existsb unsupported_outside_keywords args
  | _ => true
  end.





(** A text that is one numeric literal of the host language, with the
    constant it denotes. *)
Definition numeric_literal (text : string) (c : constant) : Prop :=
  match list_ascii_of_string text with
  | d :: rest =>
      (Parser.is_digit d
       || ((Parser.code d =? 46)%Z && Parser.starts_with_digit rest)) = true
      /\ Parser.lex_number (d :: rest) = Some (c, [])
  | [] => False
  end.

(** What the evaluator makes of a constant.  Of the constants of numeric
    literals, which are integers, floats and imaginary numbers, only the
    last are turned down. *)
Definition constant_outcome (c : constant) : outcome :=
  match c with
  | CInt n => Value (VInt n)
  | CFloat x => Value (VFloat x)
  | CBool b => Value (VBool b)
  | _ => Error Only_numeric_constants
  end.

(** The names of the function table. *)
Definition function_names : list string :=
  ["sin"; "cos"; "tan"; "asin"; "acos"; "atan"; "sqrt"; "log"; "log10";
   "exp"; "pow"; "abs"; "floor"; "ceil"; "factorial"; "radians"; "degrees"].

(** A result that is a real number. *)
Definition is_real (v : value) : bool :=
  match v with
  | VComplex _ _ => false
  | _ => true
  end.

(** The operator [**] occurs in the tree, outside keyword arguments. *)
Fixpoint uses_power (node : expr) : bool :=
  match node with
  | BinOp l op r =>
      match op with
      | Pow => true
      | _ => uses_power l || uses_power r
      end
  | UnaryOp _ x => uses_power x
  | Call _ args _ => existsb uses_power args
  | _ => false
  end.

(** The tree, keyword arguments apart, is built from what the tables and
    the constant test let through: integer, float and Boolean constants,
    the two constant names, the seven binary and the two unary operators,
    and calls of the seventeen function names. *)
Fixpoint whitelisted (node : expr) : bool :=
  match node with
  | Constant (CInt _) | Constant (CFloat _) | Constant (CBool _) => true
  | Name id => existsb (String.eqb id) ["pi"; "e"]
  | BinOp l op r =>
      match op with
      | Add | Sub | Mult | Div | FloorDiv | Mod | Pow =>
          whitelisted l && whitelisted r
      | _ => false
      end
  | UnaryOp op x =>
      match op with
      | UAdd | USub => whitelisted x
      | _ => false
      end
  | Call (Name func_name) args _ =>
      existsb (String.eqb func_name) function_names
      && forallb whitelisted args
  | _ => false
  end.

(** The numbers of arguments a function of the table takes. *)
Definition arities (func_name : string) : list nat :=
  if String.eqb func_name "log" then [1%nat; 2%nat]
  else if String.eqb func_name "pow" then [2%nat]
  else [1%nat].

(** An entry of the history that a computation has made: a text that is
    not blank and evaluates, with the value as it is displayed. *)
Definition computed (lm : Libm) (entry : string * value) : Prop :=
  blank (fst entry) = false
  /\ exists result,
       safe_eval lm (fst entry) = Value result
       /\ snd entry = result_display result.

(** The widgets of a run in which "Compute" and nothing else was pressed. *)
Definition compute_alone (w : widgets) : Prop :=
  button w "Compute" = true
  /\ button w "Clear" = false
  /\ button w "Clear History" = false
  /\ forall label, In label (buttons ++ func_buttons)%list ->
                   button w label = false.

(** ** Properties *)

(** *** Induction on expression trees, through the lists of children *)

Section ExprInduction.

Variable P : expr -> Prop.

Hypothesis P_Constant : forall value, P (Constant value).
Hypothesis P_Name : forall id, P (Name id).
Hypothesis P_BinOp : forall l op r, P l -> P r -> P (BinOp l op r).
Hypothesis P_UnaryOp : forall op x, P x -> P (UnaryOp op x).
Hypothesis P_Call : forall func args keywords,
  P func -> Forall P args -> Forall (fun kw => P (snd kw)) keywords ->
  P (Call func args keywords).
Hypothesis P_Attribute : forall value attr, P value -> P (Attribute value attr).
Hypothesis P_Subscript : forall value slice,
  P value -> P slice -> P (Subscript value slice).
Hypothesis P_Lambda : forall defaults body,
  Forall P defaults -> P body -> P (Lambda defaults body).
Hypothesis P_Starred : forall value, P value -> P (Starred value).
Hypothesis P_Other : forall cls children,
  Forall P children -> P (Other cls children).

Fixpoint expr_tree_ind (e : expr) : P e :=
  let all :=
    fix all (l : list expr) : Forall P l :=
      match l with
      | [] => Forall_nil P
      | x :: l' => Forall_cons x (expr_tree_ind x) (all l')
      end in
  match e with
  | Constant value => P_Constant value
  | Name id => P_Name id
  | BinOp l op r => P_BinOp l op r (expr_tree_ind l) (expr_tree_ind r)
  | UnaryOp op x => P_UnaryOp op x (expr_tree_ind x)
  | Call func args keywords =>
      P_Call func args keywords (expr_tree_ind func) (all args)
        ((fix all_kw (l : list (option string * expr))
            : Forall (fun kw => P (snd kw)) l :=
            match l with
            | [] => Forall_nil _
            | (k, x) :: l' =>
                Forall_cons (P := fun kw => P (snd kw)) (k, x)
                  (expr_tree_ind x) (all_kw l')
            end) keywords)
  | Attribute value attr => P_Attribute value attr (expr_tree_ind value)
  | Subscript value slice =>
      P_Subscript value slice (expr_tree_ind value) (expr_tree_ind slice)
  | Lambda defaults body =>
      P_Lambda defaults body (all defaults) (expr_tree_ind body)
  | Starred value => P_Starred value (expr_tree_ind value)
  | Other cls children => P_Other cls children (all children)
  end.

End ExprInduction.

(** *** Float zeros *)

(** A float that compares equal to zero is one of the two zeros. *)
Lemma float_eqb_zero (x : float) :
  (x =? 0) = true -> x = zero \/ x = neg_zero.
Proof.
  intro H.
  rewrite eqb_spec in H.
  rewrite <- (SF2Prim_Prim2SF x).
  destruct (Prim2SF x) as [s | s | | s m e]; try destruct s;
    cbn in H; try discriminate; auto.
Qed.

(** *** Division by zero *)

Lemma c_quot_by_zero (a : complex) (re im : float) :
  (re =? 0) = true -> (im =? 0) = true ->
  c_quot a (re, im) = Raise ZeroDivisionError.
Proof.
  intros Hre Him.
  destruct (float_eqb_zero re Hre) as [-> | ->];
    destruct (float_eqb_zero im Him) as [-> | ->]; reflexivity.
Qed.

Lemma float_div_by_zero (x y : float) :
  (y =? 0) = true -> float_div x y = Raise ZeroDivisionError.
Proof. intro H. unfold float_div. now rewrite H. Qed.

Lemma float_floor_div_by_zero (x y : float) :
  (y =? 0) = true -> float_floor_div x y = Raise ZeroDivisionError.
Proof. intro H. unfold float_floor_div. now rewrite H. Qed.

Lemma float_rem_by_zero (x y : float) :
  (y =? 0) = true -> float_rem x y = Raise ZeroDivisionError.
Proof. intro H. unfold float_rem. now rewrite H. Qed.

Lemma to_double_zero : to_double 0 = Ret zero.
Proof. reflexivity. Qed.

(** Closes a goal [exists e, _ = Raise e] about an operator applied to a
    right operand known to be zero. *)
Ltac raises_at_zero :=
  cbn [as_double as_complex bind ret_float ret_complex];
  try rewrite to_double_zero;
  repeat match goal with
         | |- context [to_double ?a] =>
             destruct (to_double a);
             cbn [as_double as_complex bind ret_float ret_complex]
         end;
  try rewrite c_quot_by_zero by (assumption || reflexivity);
  try rewrite float_div_by_zero by (assumption || reflexivity);
  try rewrite float_floor_div_by_zero by (assumption || reflexivity);
  try rewrite float_rem_by_zero by (assumption || reflexivity);
  eexists; reflexivity.

(** The case analysis on the kinds of the two operands, the right one a
    zero. *)
Ltac zero_operand_cases vl vr :=
  unfold is_zero_value, arith;
  let Hz := fresh "Hz" in
  destruct (num_of vr) as [b | y | re im];
  destruct (num_of vl) as [a | x | re' im']; intro Hz;
  try (apply andb_prop in Hz; destruct Hz as [Hre Him]);
  try (apply Z.eqb_eq in Hz; subst b).

Lemma op_truediv_by_zero (vl vr : value) :
  is_zero_value vr = true -> exists e, op_truediv vl vr = Raise e.
Proof. unfold op_truediv. zero_operand_cases vl vr; raises_at_zero. Qed.

Lemma op_floordiv_by_zero (vl vr : value) :
  is_zero_value vr = true -> exists e, op_floordiv vl vr = Raise e.
Proof. unfold op_floordiv. zero_operand_cases vl vr; raises_at_zero. Qed.

Lemma op_mod_by_zero (vl vr : value) :
  is_zero_value vr = true -> exists e, op_mod vl vr = Raise e.
Proof. unfold op_mod. zero_operand_cases vl vr; raises_at_zero. Qed.

(** *** The equations of [_eval_node] *)

Lemma _eval_node_BinOp (lm : Libm) (l : expr) (op : operator) (r : expr) :
  _eval_node lm (BinOp l op r) =
  match _eval_node lm l with
  | Error e => Error e
  | Value vl =>
      match _eval_node lm r with
      | Error e => Error e
      | Value vr =>
          match _allowed_binops lm op with
          | Some func =>
              match func vl vr with
              | Ret v => Value v
              | Raise e => Error (Error_in_operation e)
              end
          | None => Error (Operator_not_supported op)
          end
      end
  end.
Proof. reflexivity. Qed.

Lemma _eval_node_UnaryOp (lm : Libm) (op : unaryop) (x : expr) :
  _eval_node lm (UnaryOp op x) =
  match _eval_node lm x with
  | Error e => Error e
  | Value v =>
      match _allowed_unaryops op with
      | Some func => Value (func v)
      | None => Error (Unary_operator_not_supported op)
      end
  end.
Proof. reflexivity. Qed.

Lemma _eval_node_Call (lm : Libm) (func_name : string) (args : list expr)
  (keywords : list (option string * expr)) :
  _eval_node lm (Call (Name func_name) args keywords) =
  match _math_funcs lm func_name with
  | Some f =>
      match eval_args (_eval_node lm) args with
      | inl e => Error e
      | inr vs =>
          match f vs with
          | Ret v => Value v
          | Raise TypeError => Error (Bad_arguments_for func_name TypeError)
          | Raise e => Error (Error_calling func_name e)
          end
      end
  | None => Error (Function_not_allowed func_name)
  end.
Proof. reflexivity. Qed.

(** The first argument that fails ends the evaluation of the arguments. *)
Lemma eval_args_first_error (eval : expr -> outcome) (before : list expr)
  (a : expr) (after : list expr) (vs : list value) (e : EvalError) :
  eval_args eval before = inr vs -> eval a = Error e ->
  eval_args eval (before ++ a :: after) = inl e.
Proof.
  revert vs. induction before as [| b before IH]; intros vs Hb Ha; cbn.
  - now rewrite Ha.
  - cbn in Hb. destruct (eval b); [| discriminate].
    destruct (eval_args eval before) as [| vs'] eqn:Hrest; [discriminate |].
    now rewrite (IH vs' eq_refl Ha).
Qed.

(** An argument that fails makes the evaluation of the arguments fail. *)
Lemma eval_args_some_error (eval : expr -> outcome) (args : list expr) :
  Exists (fun a => exists e, eval a = Error e) args ->
  exists e, eval_args eval args = inl e.
Proof.
  induction 1 as [a rest [e Ha] | a rest _ [e IH]]; cbn.
  - rewrite Ha. now exists e.
  - destruct (eval a) as [v | e']; [| now exists e'].
    rewrite IH. now exists e.
Qed.

(** *** C2 *)

Lemma zero_division_raises (lm : Libm) (node : expr) :
  hits_zero_division lm node ->
  exists e, _eval_node lm node = Error (Error_in_operation e).
Proof.
  induction 1 as [l op r vl vr Hop Hl Hr Hz
                 | l op r _ [e IH]
                 | l op r vl Hl _ [e IH]
                 | op x _ [e IH]
                 | f before a after kws vs Hf Hbefore _ [e IH]].
  - rewrite _eval_node_BinOp, Hl, Hr.
    destruct op; try discriminate Hop; cbn [_allowed_binops].
    + destruct (op_truediv_by_zero vl vr Hz) as [e ->]. now exists e.
    + destruct (op_mod_by_zero vl vr Hz) as [e ->]. now exists e.
    + destruct (op_floordiv_by_zero vl vr Hz) as [e ->]. now exists e.
  - rewrite _eval_node_BinOp, IH. now exists e.
  - rewrite _eval_node_BinOp, Hl, IH. now exists e.
  - rewrite _eval_node_UnaryOp, IH. now exists e.
  - rewrite _eval_node_Call.
    destruct (_math_funcs lm f); [| contradiction].
    rewrite (eval_args_first_error _ _ _ after _ _ Hbefore IH). now exists e.
Qed.

(** C2.  An evaluation that reaches a division, a floor division or a
    modulo by zero makes [safe_eval] raise its own error, from the
    operation, of kind OperationError: no exception of the host escapes. *)
Theorem division_by_zero_is_operation_error (lm : Libm) (body : expr) :
  existsb is_disallowed (walk body) = false ->
  hits_zero_division lm body ->
  exists e,
    safe_eval_parsed lm (Some (Expression body))
      = Error (Error_in_operation e)
    /\ kind_of (Error_in_operation e) = OperationError.
Proof.
  intros Hwalk Hz. cbn [safe_eval_parsed]. rewrite Hwalk.
  destruct (zero_division_raises lm body Hz) as [e He].
  exists e. split; [exact He | reflexivity].
Qed.

Lemma division_by_zero_is_operation_error_witness :
  Parser.ast_parse "1/0"
    = Some (Expression (BinOp (Constant (CInt 1)) Div (Constant (CInt 0))))
  /\ exists e,
       safe_eval_parsed libm_ref (Parser.ast_parse "1/0")
         = Error (Error_in_operation e)
       /\ kind_of (Error_in_operation e) = OperationError.
Proof.
  split; [reflexivity |].
  apply (division_by_zero_is_operation_error libm_ref
           (BinOp (Constant (CInt 1)) Div (Constant (CInt 0)))).
  - reflexivity.
  - apply (zd_here libm_ref _ Div _ (VInt 1) (VInt 0)); reflexivity.
Defined.

(** The example of the claim, whatever the C library. *)
Lemma one_over_zero (lm : Libm) :
  safe_eval lm "1/0" = Error (Error_in_operation ZeroDivisionError).
Proof. reflexivity. Qed.

(** *** C1 *)

(** A call whose function is not a bare name is an error. *)
Lemma call_of_non_name (lm : Libm) (func : expr) (args : list expr)
  (keywords : list (option string * expr)) :
  (forall id, func <> Name id) ->
  _eval_node lm (Call func args keywords) = Error Only_direct_function_names.
Proof.
  intro H. destruct func; try reflexivity. now contradiction (H id).
Qed.

(** A node of an unsupported class outside the keyword arguments makes the
    evaluation fail. *)
Lemma unsupported_node_fails (lm : Libm) (node : expr) :
  unsupported_outside_keywords node = true ->
  exists e, _eval_node lm node = Error e.
Proof.
  induction node as [value | id | l op r IHl IHr | op x IH
                    | func args keywords IHfunc IHargs _
                    | value attr _ | value slice _ _ | defaults body _ _
                    | value _ | cls children _] using expr_tree_ind;
    cbn [unsupported_outside_keywords]; intro H;
    try discriminate H; try (eexists; reflexivity).
  - rewrite _eval_node_BinOp.
    destruct (_eval_node lm l) as [vl | e] eqn:Hl; [| now exists e].
    apply orb_prop in H. destruct H as [H | H].
    + destruct (IHl H) as [e He]. discriminate He.
    + destruct (IHr H) as [e ->]. now exists e.
  - rewrite _eval_node_UnaryOp. destruct (IH H) as [e ->]. now exists e.
  - destruct func as [| id | | | | | | | |];
      try (eexists; reflexivity).
    cbn [unsupported_outside_keywords orb] in H.
    rewrite _eval_node_Call.
    destruct (_math_funcs lm id); [| eexists; reflexivity].
    destruct (eval_args_some_error (_eval_node lm) args) as [e ->];
      [| now exists e].
    apply existsb_exists in H. destruct H as [a [Hin Ha]].
    apply Exists_exists. exists a. split; [exact Hin |].
    rewrite Forall_forall in IHargs. exact (IHargs a Hin Ha).
Qed.

(** C1, as the code has it.  A lambda anywhere in the tree, keyword
    arguments included, is a DisallowedConstruct; a node of another
    unsupported class (attribute access, subscript, ...) outside the keyword
    arguments makes [safe_eval] raise, so that no number is returned, and
    the error is a DisallowedConstruct when that node is the whole
    expression; an assignment and an import do not parse and are a
    SyntaxError. *)
Theorem disallowed_constructs_are_rejected (lm : Libm) (body : expr) :
  (existsb is_disallowed (walk body) = true ->
   safe_eval_parsed lm (Some (Expression body))
     = Error Disallowed_Python_construct)
  /\ (unsupported_outside_keywords body = true ->
      exists e, safe_eval_parsed lm (Some (Expression body)) = Error e)
  /\ (unsupported_class body = true ->
      exists e, safe_eval_parsed lm (Some (Expression body)) = Error e
                /\ kind_of e = DisallowedConstruct)
  /\ safe_eval lm "x=1" = Error Syntax_error
  /\ safe_eval lm "import os" = Error Syntax_error
  /\ safe_eval lm "lambda: 1" = Error Disallowed_Python_construct
  /\ safe_eval lm "os.system"
     = Error (Unsupported_expression (Attribute (Name "os") "system"))
  /\ safe_eval lm "a[0]"
     = Error (Unsupported_expression (Subscript (Name "a") (Constant (CInt 0)))).
Proof.
  repeat split; try reflexivity.
  - intro H. cbn [safe_eval_parsed]. now rewrite H.
  - intro H. cbn [safe_eval_parsed _eval_root].
    destruct (existsb is_disallowed (walk body)); [eexists; reflexivity |].
    exact (unsupported_node_fails lm body H).
  - intro H. cbn [safe_eval_parsed _eval_root].
    destruct (existsb is_disallowed (walk body));
      [eexists; split; reflexivity |].
    destruct body; try discriminate H; eexists; split; reflexivity.
Qed.

Lemma disallowed_constructs_are_rejected_witness :
  safe_eval_parsed libm_ref
    (Some (Expression (BinOp (Constant (CInt 1)) Add
                         (Call (Name "abs") [Attribute (Name "os") "system"]
                            [(Some "k", Lambda [] (Name "x"))]))))
  = Error Disallowed_Python_construct
  /\ (exists e,
        safe_eval_parsed libm_ref
          (Some (Expression (BinOp (Constant (CInt 1)) Add
                               (Call (Name "abs")
                                  [Attribute (Name "os") "system"] []))))
        = Error e)
  /\ (exists e,
        safe_eval_parsed libm_ref
          (Some (Expression (Subscript (Name "a") (Constant (CInt 0)))))
        = Error e
        /\ kind_of e = DisallowedConstruct).
Proof.
  split; [| split].
  - exact (proj1 (disallowed_constructs_are_rejected libm_ref
             (BinOp (Constant (CInt 1)) Add
                (Call (Name "abs") [Attribute (Name "os") "system"]
                   [(Some "k", Lambda [] (Name "x"))]))) eq_refl).
  - exact (proj1 (proj2 (disallowed_constructs_are_rejected libm_ref
             (BinOp (Constant (CInt 1)) Add
                (Call (Name "abs") [Attribute (Name "os") "system"] []))))
             eq_refl).
  - exact (proj1 (proj2 (proj2 (disallowed_constructs_are_rejected libm_ref
             (Subscript (Name "a") (Constant (CInt 0)))))) eq_refl).
Defined.

(** The claim as the spec states it fails twice.  An attribute access in a
    keyword argument is neither evaluated nor rejected, and a number comes
    back; and a subscript that follows an unknown name is never reached,
    the error being the one of the name. *)
Lemma attribute_in_keyword_returns_number :
  Parser.ast_parse "abs(1, k=os.system)"
    = Some (Expression
              (Call (Name "abs") [Constant (CInt 1)]
                 [(Some "k", Attribute (Name "os") "system")]))
  /\ existsb unsupported_class
       (walk (Call (Name "abs") [Constant (CInt 1)]
                [(Some "k", Attribute (Name "os") "system")])) = true
  /\ (forall lm, safe_eval lm "abs(1, k=os.system)" = Value (VInt 1))
  /\ (forall lm, safe_eval lm "xyz + a[0]" = Error (Unknown_identifier "xyz"))
  /\ kind_of (Unknown_identifier "xyz") = UnknownIdentifier.
Proof. repeat split. Qed.

(** *** C3 *)





(** *** C4 *)

(** A string literal that is evaluated is rejected. *)
Lemma string_literal_is_rejected (lm : Libm) (s : string) :
  _eval_node lm (Constant (CStr s)) = Error Only_numeric_constants
  /\ kind_of Only_numeric_constants = DisallowedConstruct.
Proof. split; reflexivity. Qed.

(** C4, at its failing input.  A Boolean literal passes the test for
    numeric constants, [bool] being a subclass of [int]: it is returned as
    it is and counts as 0 or 1 in arithmetic. *)
Theorem boolean_literal_is_returned (lm : Libm) :
  safe_eval lm "True" = Value (VBool true)
  /\ safe_eval lm "False" = Value (VBool false)
  /\ safe_eval lm "True + True" = Value (VInt 2)
  /\ forall b, _eval_node lm (Constant (CBool b)) = Value (VBool b).
Proof. repeat split. Qed.

(** *** C5 *)

(** C5, at its failing input.  A negative base under a fractional exponent
    is handed by the host to complex exponentiation, which returns: the
    evaluator gives back a complex number, here with the modulus and the
    phase the C library computes, and raises nothing. *)
Theorem negative_base_fractional_power_is_complex (lm : Libm) :
  let len := c_pow lm (c_hypot lm (-8) 0) 0.5 in
  let phase := c_atan2 lm 0 (-8) * 0.5 in
  is_infinity (len * c_cos lm phase) = false ->
  is_infinity (len * c_sin lm phase) = false ->
  safe_eval lm "(-8) ** 0.5"
  = Value (VComplex (len * c_cos lm phase) (len * c_sin lm phase)).
Proof.
  intros len phase Hre Him.
  change (safe_eval lm "(-8) ** 0.5")
    with (match (p <- (if is_infinity (len * c_cos lm phase)
                          || is_infinity (len * c_sin lm phase)
                       then Raise OverflowError
                       else Ret (len * c_cos lm phase, len * c_sin lm phase)) ;;
                 Ret (VComplex (fst p) (snd p))) with
          | Ret v => Value v
          | Raise e => Error (Error_in_operation e)
          end).
  now rewrite Hre, Him.
Qed.

Lemma negative_base_fractional_power_is_complex_witness :
  safe_eval libm_ref "(-8) ** 0.5"
  = Value (VComplex 1.7319121124709868e-16 2.8284271247461903).
Proof.
  exact (negative_base_fractional_power_is_complex libm_ref eq_refl eq_refl).
Defined.

(** The sibling path: [pow(-8, 0.5)] goes through [math.pow], which raises
    where the C library answers NaN. *)
Lemma math_pow_of_negative_base (lm : Libm) :
  is_nan (c_pow lm (-8) 0.5) = true ->
  safe_eval lm "pow(-8, 0.5)" = Error (Error_calling "pow" ValueError).
Proof.
  intro H.
  change (safe_eval lm "pow(-8, 0.5)")
    with (match (if is_nan (c_pow lm (-8) 0.5) then Raise ValueError
                 else if is_infinity (c_pow lm (-8) 0.5)
                      then Raise OverflowError
                      else Ret (VFloat (c_pow lm (-8) 0.5))) with
          | Ret v => Value v
          | Raise TypeError => Error (Bad_arguments_for "pow" TypeError)
          | Raise e => Error (Error_calling "pow" e)
          end).
  now rewrite H.
Qed.

(** An imaginary literal, too, is no numeric constant for the evaluator. *)
Lemma imaginary_literal_is_rejected (lm : Libm) :
  safe_eval lm "1j" = Error Only_numeric_constants.
Proof. reflexivity. Qed.

(** *** C6 *)

(** The first character of a number is no white space. *)
Lemma number_start_is_not_blank (d : ascii) (rest : list ascii) :
  (Parser.is_digit d
   || ((Parser.code d =? 46)%Z && Parser.starts_with_digit rest)) = true ->
  ((Parser.code d =? 32)%Z || (Parser.code d =? 9)%Z) = false.
Proof.
  unfold Parser.is_digit. intro H.
  destruct (Parser.code d =? 32)%Z eqn:E32;
    destruct (Parser.code d =? 9)%Z eqn:E9; try reflexivity;
    try (apply Z.eqb_eq in E32; rewrite E32 in H; discriminate H);
    try (apply Z.eqb_eq in E9; rewrite E9 in H; discriminate H).
Qed.

(** A text that is one numeric literal parses to its constant. *)
Lemma numeric_literal_parses (text : string) (c : constant) :
  numeric_literal text c ->
  Parser.ast_parse text = Some (Expression (Constant c)).
Proof.
  unfold numeric_literal, Parser.ast_parse, Parser.tokens_of.
  destruct (list_ascii_of_string text) as [| d rest]; [contradiction |].
  intros [Hstart Hlex].
  rewrite (number_start_is_not_blank d rest Hstart).
  cbn [Parser.tokenize List.length].
  rewrite (number_start_is_not_blank d rest Hstart), Hstart, Hlex.
  reflexivity.
Qed.

(** C6, as the code has it.  The numeric literals are those of the host
    language, in every form: a text that is one literal evaluates to the
    number it denotes, whether written in decimal, in hexadecimal, octal or
    binary, or with underscores between digits; only an imaginary literal is
    turned down. *)
Theorem numeric_literals_of_the_host (lm : Libm) (text : string)
  (c : constant) :
  numeric_literal text c -> safe_eval lm text = constant_outcome c.
Proof.
  intro H. unfold safe_eval. rewrite (numeric_literal_parses text c H).
  destruct c; reflexivity.
Qed.

Lemma numeric_literals_of_the_host_witness :
  safe_eval libm_ref "0x10" = Value (VInt 16)
  /\ safe_eval libm_ref "0o17" = Value (VInt 15)
  /\ safe_eval libm_ref "0b101" = Value (VInt 5)
  /\ safe_eval libm_ref "1_000" = Value (VInt 1000)
  /\ safe_eval libm_ref "42" = Value (VInt 42)
  /\ safe_eval libm_ref "1.5e3" = Value (VFloat 1500)
  /\ safe_eval libm_ref ".5" = Value (VFloat 0.5)
  /\ safe_eval libm_ref "3j" = Error Only_numeric_constants.
Proof.
  exact
    (conj (numeric_literals_of_the_host libm_ref "0x10" (CInt 16)
             (conj eq_refl eq_refl))
    (conj (numeric_literals_of_the_host libm_ref "0o17" (CInt 15)
             (conj eq_refl eq_refl))
    (conj (numeric_literals_of_the_host libm_ref "0b101" (CInt 5)
             (conj eq_refl eq_refl))
    (conj (numeric_literals_of_the_host libm_ref "1_000" (CInt 1000)
             (conj eq_refl eq_refl))
    (conj (numeric_literals_of_the_host libm_ref "42" (CInt 42)
             (conj eq_refl eq_refl))
    (conj (numeric_literals_of_the_host libm_ref "1.5e3" (CFloat 1500)
             (conj eq_refl eq_refl))
    (conj (numeric_literals_of_the_host libm_ref ".5" (CFloat 0.5)
             (conj eq_refl eq_refl))
          (numeric_literals_of_the_host libm_ref "3j" (CComplex 0 3)
             (conj eq_refl eq_refl))))))))).
Defined.

(** The claim as the spec states it fails: the hexadecimal literal and the
    literal with an underscore evaluate to numbers. *)
Lemma hexadecimal_and_underscored_literals_are_accepted :
  (forall lm, safe_eval lm "0x10" = Value (VInt 16))
  /\ (forall lm, safe_eval lm "1_000" = Value (VInt 1000)).
Proof. split; reflexivity. Qed.

(** *** C7 *)

(** C7.  [log] takes one argument or two.  With one, the result is the
    natural logarithm of the C library at the argument; with two, the
    quotient in double arithmetic of the logarithms of the first and of the
    second.  Where the C library rounds the logarithms of 8, 10 and 100
    correctly, the two examples give 2.0794415416798357 and exactly 2.0. *)
Theorem log_accepts_one_or_two_arguments (lm : Libm) :
  safe_eval lm "log(8)" = Value (VFloat (c_log lm 8))
  /\ ((c_log lm 10 =? 0) = false ->
      safe_eval lm "log(100, 10)"
      = Value (VFloat (c_log lm 100 / c_log lm 10)))
  /\ (c_log lm 8 = ln8 -> safe_eval lm "log(8)" = Value (VFloat ln8))
  /\ (c_log lm 100 = ln100 -> c_log lm 10 = ln10 ->
      safe_eval lm "log(100, 10)" = Value (VFloat 2))
  /\ (2.0794 <? ln8) = true /\ (ln8 <? 2.0795) = true.
Proof.
  assert (Htwo : safe_eval lm "log(100, 10)"
                 = match ret_float (float_div (c_log lm 100) (c_log lm 10)) with
                   | Ret v => Value v
                   | Raise TypeError => Error (Bad_arguments_for "log" TypeError)
                   | Raise e => Error (Error_calling "log" e)
                   end) by reflexivity.
  repeat split.
  - intro H. rewrite Htwo. unfold float_div. now rewrite H.
  - intro H. change (safe_eval lm "log(8)") with (Value (VFloat (c_log lm 8))).
    now rewrite H.
  - intros H100 H10. rewrite Htwo, H100, H10. reflexivity.
Qed.

Lemma log_accepts_one_or_two_arguments_witness :
  safe_eval libm_ref "log(8)" = Value (VFloat 2.0794415416798357)
  /\ safe_eval libm_ref "log(100, 10)" = Value (VFloat 2).
Proof.
  split.
  - exact (proj1 (proj2 (proj2
             (log_accepts_one_or_two_arguments libm_ref))) eq_refl).
  - exact (proj1 (proj2 (proj2 (proj2
             (log_accepts_one_or_two_arguments libm_ref)))) eq_refl eq_refl).
Defined.

(** Any other number of arguments is a TypeError of the host, reported as
    bad arguments. *)
Lemma log_of_three_arguments (lm : Libm) :
  safe_eval lm "log(1, 2, 3)" = Error (Bad_arguments_for "log" TypeError)
  /\ safe_eval lm "log()" = Error (Bad_arguments_for "log" TypeError).
Proof. split; reflexivity. Qed.

(** *** C8 *)

(** C8.  [factorial] of an integer literal that is not negative is the
    exact integer, never a float; of a negative one it is an error from the
    call, of kind OperationError.  So for 5, which gives 120, and for -1. *)
Theorem factorial_is_exact_and_rejects_negatives (lm : Libm) :
  safe_eval lm "factorial(5)" = Value (VInt 120)
  /\ safe_eval lm "factorial(-1)" = Error (Error_calling "factorial" ValueError)
  /\ kind_of (Error_calling "factorial" ValueError) = OperationError
  /\ (forall n keywords,
        (0 <= n <= LONG_MAX)%Z ->
        _eval_node lm (Call (Name "factorial") [Constant (CInt n)] keywords)
        = Value (VInt (factorial_nat (Z.to_nat n))))
  /\ (forall n keywords,
        (n < 0)%Z ->
        _eval_node lm (Call (Name "factorial") [Constant (CInt n)] keywords)
        = Error (Error_calling "factorial" ValueError)).
Proof.
  split; [reflexivity |]. split; [reflexivity |]. split; [reflexivity |].
  split; intros n keywords Hn.
  - change (_eval_node lm (Call (Name "factorial") [Constant (CInt n)] keywords))
      with (match (if (LONG_MAX <? n)%Z then Raise OverflowError
                   else if (n <? 0)%Z then Raise ValueError
                   else Ret (VInt (factorial_nat (Z.to_nat n)))) with
            | Ret v => Value v
            | Raise TypeError => Error (Bad_arguments_for "factorial" TypeError)
            | Raise e => Error (Error_calling "factorial" e)
            end).
    destruct (Z.ltb_spec LONG_MAX n); [lia |].
    destruct (Z.ltb_spec n 0); [lia | reflexivity].
  - change (_eval_node lm (Call (Name "factorial") [Constant (CInt n)] keywords))
      with (match (if (LONG_MAX <? n)%Z then Raise OverflowError
                   else if (n <? 0)%Z then Raise ValueError
                   else Ret (VInt (factorial_nat (Z.to_nat n)))) with
            | Ret v => Value v
            | Raise TypeError => Error (Bad_arguments_for "factorial" TypeError)
            | Raise e => Error (Error_calling "factorial" e)
            end).
    destruct (Z.ltb_spec LONG_MAX n); [unfold LONG_MAX in *; lia |].
    destruct (Z.ltb_spec n 0); [reflexivity | lia].
Qed.

Lemma factorial_is_exact_and_rejects_negatives_witness :
  _eval_node libm_ref (Call (Name "factorial") [Constant (CInt 5)] [])
  = Value (VInt 120)
  /\ _eval_node libm_ref (Call (Name "factorial") [Constant (CInt (-1))] [])
     = Error (Error_calling "factorial" ValueError).
Proof.
  split.
  - refine (proj1 (proj2 (proj2 (proj2
              (factorial_is_exact_and_rejects_negatives libm_ref))))
              5%Z [] _).
    unfold LONG_MAX. lia.
  - refine (proj2 (proj2 (proj2 (proj2
              (factorial_is_exact_and_rejects_negatives libm_ref))))
              (-1)%Z [] _).
    lia.
Defined.

(** *** C9 *)

(** The constant table holds [pi] and [e] and nothing else. *)
Lemma _constants_names (id : string) :
  _constants id = None <-> id <> "pi" /\ id <> "e".
Proof.
  unfold _constants, _constants_table; cbn [lookup].
  destruct (String.eqb_spec id "pi") as [-> | Hpi].
  - split; [discriminate | intros [H _]; now contradiction H].
  - destruct (String.eqb_spec id "e") as [-> | He].
    + split; [discriminate | intros [_ H]; now contradiction H].
    + split; [now split | reflexivity].
Qed.

(** The function table holds the seventeen names and nothing else. *)
Lemma _math_funcs_names (lm : Libm) (func_name : string) :
  _math_funcs lm func_name = None <-> ~ In func_name function_names.
Proof.
  unfold _math_funcs, _math_funcs_table, function_names; cbn [lookup In].
  repeat match goal with
         | |- context [String.eqb func_name ?s] =>
             destruct (String.eqb_spec func_name s) as [-> | ?];
             [split; [discriminate | intro H; exfalso; apply H; tauto] |]
         end.
  split; [| reflexivity].
  intros _ H.
  repeat match goal with
         | H : _ \/ _ |- _ => destruct H as [H | H]
         end; try (symmetry in H; contradiction); exact H.
Qed.

(** C9.  A name outside the constant table is an unknown identifier and a
    call of a name outside the function table an unknown function, the
    error carrying the name; so for [xyz] and for [unknown_fn(1)]. *)
Theorem unknown_names_are_reported (lm : Libm) :
  (forall id,
     id <> "pi" -> id <> "e" ->
     _eval_node lm (Name id) = Error (Unknown_identifier id)
     /\ kind_of (Unknown_identifier id) = UnknownIdentifier)
  /\ (forall func_name args keywords,
        ~ In func_name function_names ->
        _eval_node lm (Call (Name func_name) args keywords)
        = Error (Function_not_allowed func_name)
        /\ kind_of (Function_not_allowed func_name) = UnknownFunction)
  /\ safe_eval lm "xyz" = Error (Unknown_identifier "xyz")
  /\ safe_eval lm "unknown_fn(1)" = Error (Function_not_allowed "unknown_fn").
Proof.
  split; [| split; [| split; reflexivity]].
  - intros id Hpi He. split; [| reflexivity].
    cbn [_eval_node].
    now rewrite (proj2 (_constants_names id) (conj Hpi He)).
  - intros func_name args keywords H. split; [| reflexivity].
    rewrite _eval_node_Call.
    now rewrite (proj2 (_math_funcs_names lm func_name) H).
Qed.

Lemma unknown_names_are_reported_witness :
  _eval_node libm_ref (Name "xyz") = Error (Unknown_identifier "xyz")
  /\ _eval_node libm_ref (Call (Name "unknown_fn") [Constant (CInt 1)] [])
     = Error (Function_not_allowed "unknown_fn").
Proof.
  split.
  - refine (proj1 (proj1 (unknown_names_are_reported libm_ref) "xyz" _ _));
      discriminate.
  - refine (proj1 (proj1 (proj2 (unknown_names_are_reported libm_ref))
                     "unknown_fn" [Constant (CInt 1)] [] _)).
    cbn [In function_names].
    intros H.
    repeat match goal with
           | H : _ \/ _ |- _ => destruct H as [H | H]
           end; try discriminate H; exact H.
Defined.

(** *** C10 *)

(** C10.  The keyword arguments of a call play no part in its evaluation:
    they are neither evaluated nor checked, and the function is called with
    the positional arguments alone.  So [log(100, base=10)] is the natural
    logarithm of 100, whatever stands behind [base]. *)
Theorem keyword_arguments_are_discarded (lm : Libm) :
  (forall func args keywords,
     _eval_node lm (Call func args keywords) = _eval_node lm (Call func args []))
  /\ safe_eval lm "log(100, base=10)" = Value (VFloat (c_log lm 100))
  /\ safe_eval lm "log(100, base=10)" = safe_eval lm "log(100)"
  /\ safe_eval lm "log(100, base=1/0)" = safe_eval lm "log(100)"
  /\ safe_eval lm "log(100, base=os.system)" = safe_eval lm "log(100)".
Proof.
  split; [| repeat split].
  intros func args keywords. destruct func; reflexivity.
Qed.

(** The walk over the tree before the evaluation does look into the keyword
    arguments, for lambdas alone. *)
Lemma lambda_in_keyword_is_rejected (lm : Libm) :
  safe_eval lm "log(100, base=lambda: 10)" = Error Disallowed_Python_construct.
Proof. reflexivity. Qed.

(** *** Further examples of the interface *)

(** Empty text, blank text and malformed text do not parse: a
    SyntaxError. *)
Theorem blank_and_malformed_text_is_a_syntax_error (lm : Libm) :
  safe_eval lm "" = Error Syntax_error
  /\ safe_eval lm "   " = Error Syntax_error
  /\ safe_eval lm "1 +" = Error Syntax_error
  /\ safe_eval lm "(1 + 2" = Error Syntax_error
  /\ safe_eval lm "f(1,,2)" = Error Syntax_error
  /\ kind_of Syntax_error = SyntaxError.
Proof. repeat split. Qed.

(** [sqrt(16) + sin(0)] is 4.0 where the sine of the C library is 0 at
    0. *)
Theorem sqrt_plus_sin_example (lm : Libm) :
  c_sin lm 0 = 0 ->
  safe_eval lm "sqrt(16) + sin(0)" = Value (VFloat 4).
Proof.
  intro H.
  assert (Hsin : _eval_node lm (Call (Name "sin") [Constant (CInt 0)] [])
                 = Value (VFloat 0)).
  { change (_eval_node lm (Call (Name "sin") [Constant (CInt 0)] []))
      with (match ret_float (math_1 (c_sin lm) false 0) with
            | Ret v => Value v
            | Raise TypeError => Error (Bad_arguments_for "sin" TypeError)
            | Raise e => Error (Error_calling "sin" e)
            end).
    unfold math_1. rewrite H. reflexivity. }
  change (safe_eval lm "sqrt(16) + sin(0)")
    with (_eval_node lm
            (BinOp (Call (Name "sqrt") [Constant (CInt 16)] []) Add
               (Call (Name "sin") [Constant (CInt 0)] []))).
  rewrite _eval_node_BinOp, Hsin. reflexivity.
Qed.

Lemma sqrt_plus_sin_example_witness :
  safe_eval libm_ref "sqrt(16) + sin(0)" = Value (VFloat 4).
Proof. exact (sqrt_plus_sin_example libm_ref eq_refl). Defined.

(** X5.  An error of an operand or of an argument is the error of the
    whole: nothing is swallowed on the way up. *)
Theorem errors_propagate_unchanged (lm : Libm) (e : EvalError) :
  (forall l op r, _eval_node lm l = Error e ->
                  _eval_node lm (BinOp l op r) = Error e)
  /\ (forall l op r v, _eval_node lm l = Value v ->
                       _eval_node lm r = Error e ->
                       _eval_node lm (BinOp l op r) = Error e)
  /\ (forall op x, _eval_node lm x = Error e ->
                   _eval_node lm (UnaryOp op x) = Error e)
  /\ (forall func_name before a after keywords vs,
        _math_funcs lm func_name <> None ->
        eval_args (_eval_node lm) before = inr vs ->
        _eval_node lm a = Error e ->
        _eval_node lm (Call (Name func_name) (before ++ a :: after) keywords)
        = Error e).
Proof.
  repeat split.
  - intros l op r H. now rewrite _eval_node_BinOp, H.
  - intros l op r v Hl Hr. now rewrite _eval_node_BinOp, Hl, Hr.
  - intros op x H. now rewrite _eval_node_UnaryOp, H.
  - intros func_name before a after keywords vs Hf Hb Ha.
    rewrite _eval_node_Call.
    destruct (_math_funcs lm func_name); [| contradiction].
    now rewrite (eval_args_first_error _ _ _ after _ _ Hb Ha).
Qed.

Lemma errors_propagate_unchanged_witness :
  _eval_node libm_ref
    (Call (Name "abs")
       [BinOp (Constant (CInt 1)) Add (Name "xyz")] [])
  = Error (Unknown_identifier "xyz").
Proof.
  refine (proj2 (proj2 (proj2
            (errors_propagate_unchanged libm_ref (Unknown_identifier "xyz"))))
            "abs" [] _ [] [] [] _ eq_refl _).
  - discriminate.
  - exact (proj1 (proj2
             (errors_propagate_unchanged libm_ref (Unknown_identifier "xyz")))
             (Constant (CInt 1)) Add (Name "xyz") (VInt 1) eq_refl eq_refl).
Defined.

(** *** What the evaluator lets through *)

(** Arguments that evaluate have each evaluated, and to as many values. *)
Lemma eval_args_values (eval : expr -> outcome) (args : list expr)
  (vs : list value) :
  eval_args eval args = inr vs ->
  Forall (fun a => exists v, eval a = Value v) args
  /\ List.length vs = List.length args.
Proof.
  revert vs. induction args as [| a args IH]; intros vs H; cbn in H.
  - inversion H. split; [constructor | reflexivity].
  - destruct (eval a) as [v |] eqn:Ha; [| discriminate H].
    destruct (eval_args eval args) as [| vs'] eqn:Hargs; [discriminate H |].
    inversion H; subst vs. destruct (IH vs' eq_refl) as [Hall Hlen].
    split; [constructor; [now exists v | exact Hall] | cbn; now rewrite Hlen].
Qed.

(** A name the function table holds is one of the seventeen. *)
Lemma _math_funcs_listed (lm : Libm) (func_name : string) :
  _math_funcs lm func_name <> None ->
  existsb (String.eqb func_name) function_names = true.
Proof.
  unfold _math_funcs, _math_funcs_table, function_names;
    cbn [lookup existsb].
  repeat match goal with
         | |- context [String.eqb func_name ?s] =>
             destruct (String.eqb func_name s); [reflexivity |]
         end.
  intro H. now contradiction H.
Qed.

(** X1.  Whatever evaluates to a value is built, keyword arguments apart,
    from the whitelists alone: numeric and Boolean constants, [pi] and [e],
    the seven binary and the two unary operators of the tables, and calls
    of the seventeen functions by their bare names. *)
Theorem only_whitelisted_trees_evaluate (lm : Libm) (node : expr)
  (v : value) :
  _eval_node lm node = Value v -> whitelisted node = true.
Proof.
  revert v.
  induction node as [value | id | l op r IHl IHr | op x IH
                    | func args keywords _ IHargs _
                    | value attr _ | value slice _ _ | defaults body _ _
                    | value _ | cls children _] using expr_tree_ind;
    intros v H; try discriminate H.
  - destruct value; try discriminate H; reflexivity.
  - cbn [_eval_node] in H. cbn [whitelisted existsb].
    unfold _constants, _constants_table in H; cbn [lookup] in H.
    destruct (String.eqb id "pi"); [reflexivity |].
    destruct (String.eqb id "e"); [reflexivity | discriminate H].
  - rewrite _eval_node_BinOp in H.
    destruct (_eval_node lm l) as [vl |]; [| discriminate H].
    destruct (_eval_node lm r) as [vr |]; [| discriminate H].
    cbn [whitelisted]. rewrite (IHl vl eq_refl), (IHr vr eq_refl).
    destruct op; try discriminate H; reflexivity.
  - rewrite _eval_node_UnaryOp in H.
    destruct (_eval_node lm x) as [vx |]; [| discriminate H].
    cbn [whitelisted]. rewrite (IH vx eq_refl).
    destruct op; try discriminate H; reflexivity.
  - destruct func as [| id | | | | | | | |]; try discriminate H.
    rewrite _eval_node_Call in H. cbn [whitelisted].
    destruct (_math_funcs lm id) as [f |] eqn:Hf; [| discriminate H].
    rewrite (_math_funcs_listed lm id) by (rewrite Hf; discriminate).
    destruct (eval_args (_eval_node lm) args) as [| vs] eqn:Hargs;
      [discriminate H |].
    apply forallb_forall. intros a Ha.
    destruct (eval_args_values _ _ _ Hargs) as [Hall _].
    rewrite Forall_forall in Hall, IHargs.
    destruct (Hall a Ha) as [va Hva]. exact (IHargs a Ha va Hva).
Qed.

Lemma only_whitelisted_trees_evaluate_witness :
  whitelisted
    (BinOp (Call (Name "abs") [UnaryOp USub (Constant (CInt 3))]
              [(Some "k", Attribute (Name "os") "system")])
       Mult (Constant (CInt 2))) = true.
Proof.
  exact (only_whitelisted_trees_evaluate libm_ref
           (BinOp (Call (Name "abs") [UnaryOp USub (Constant (CInt 3))]
                     [(Some "k", Attribute (Name "os") "system")])
              Mult (Constant (CInt 2)))
           (VInt 6) eq_refl).
Defined.

(** *** Where complex numbers come from *)

Lemma ret_float_is_real (r : res float) (v : value) :
  ret_float r = Ret v -> is_real v = true.
Proof. destruct r; cbn; intro H; now inversion H. Qed.

Lemma bind_returns {A B : Type} (r : res A) (k : A -> res B) (b : B) :
  bind r k = Ret b -> exists a, r = Ret a /\ k a = Ret b.
Proof. destruct r as [a |]; cbn; [now exists a | discriminate]. Qed.

(** Takes a hypothesis [_ = Ret v] apart, down to the float or the integer
    that [v] is made of. *)
Ltac returns_real H :=
  repeat match type of H with
         | ret_float _ = Ret _ => exact (ret_float_is_real _ _ H)
         | Ret _ = Ret _ => inversion H; reflexivity
         | Raise _ = Ret _ => discriminate H
         | bind _ _ = Ret _ =>
             let a := fresh "a" in
             let Ha := fresh "Ha" in
             apply bind_returns in H; destruct H as [a [Ha H]]
         | (if ?c then _ else _) = Ret _ => destruct c
         | match ?n with NInt _ => _ | NFloat _ => _ | NComplex _ _ => _ end
           = Ret _ => destruct n
         end.

(** The six operators other than [**] give real results on real operands. *)
Lemma real_operands_real_result (lm : Libm) (op : operator)
  (func : value -> value -> res value) (vl vr v : value) :
  op <> Pow -> _allowed_binops lm op = Some func ->
  is_real vl = true -> is_real vr = true ->
  func vl vr = Ret v -> is_real v = true.
Proof.
  intros Hop Hfunc Hl Hr H.
  destruct op; try discriminate Hfunc; try (now contradiction Hop);
    inversion Hfunc; subst func; clear Hfunc;
    destruct vl; try discriminate Hl; destruct vr; try discriminate Hr;
    cbv beta iota delta [op_add op_sub op_mul op_truediv op_floordiv op_mod
                         arith num_of as_double] in H;
    returns_real H.
Qed.

(** The functions of the table return real numbers. *)
Lemma functions_return_reals (lm : Libm) (func_name : string)
  (func : list value -> res value) (vs : list value) (v : value) :
  _math_funcs lm func_name = Some func -> func vs = Ret v ->
  is_real v = true.
Proof.
  unfold _math_funcs, _math_funcs_table; cbn [lookup].
  repeat match goal with
         | |- context [String.eqb func_name ?s] =>
             destruct (String.eqb func_name s)
         end;
    intros Hfunc H; try discriminate Hfunc;
    inversion Hfunc; subst func; clear Hfunc;
    unfold FUNC1, math_log, math_log10, math_pow, builtin_abs, math_floor,
      math_ceil, math_round, math_factorial, math_radians, math_degrees,
      unary in H;
    repeat match type of H with
           | match ?l with [] => _ | _ :: _ => _ end = Ret _ => destruct l
           end;
    returns_real H.
Qed.

(** X2.  A complex number comes from the operator [**] and from nowhere
    else: a tree in which [**] does not occur, keyword arguments apart,
    evaluates to a real number if it evaluates at all. *)
Theorem complex_results_come_from_power_only (lm : Libm) (node : expr)
  (v : value) :
  uses_power node = false -> _eval_node lm node = Value v ->
  is_real v = true.
Proof.
  revert v.
  induction node as [value | id | l op r IHl IHr | op x IH
                    | func args keywords _ IHargs _
                    | value attr _ | value slice _ _ | defaults body _ _
                    | value _ | cls children _] using expr_tree_ind;
    intros v Hpow H; try discriminate H.
  - destruct value; try discriminate H; now inversion H.
  - cbn [_eval_node] in H.
    unfold _constants, _constants_table in H; cbn [lookup] in H.
    destruct (String.eqb id "pi"); [now inversion H |].
    destruct (String.eqb id "e"); [now inversion H | discriminate H].
  - rewrite _eval_node_BinOp in H.
    destruct (_eval_node lm l) as [vl |]; [| discriminate H].
    destruct (_eval_node lm r) as [vr |]; [| discriminate H].
    destruct (_allowed_binops lm op) as [func |] eqn:Hfunc;
      [| discriminate H].
    destruct (func vl vr) as [v' |] eqn:Hv; inversion H; subst v'.
    assert (Hop : op <> Pow) by (intros ->; discriminate Hpow).
    cbn [uses_power] in Hpow.
    assert (Hlr : uses_power l || uses_power r = false)
      by (destruct op; try exact Hpow; now contradiction Hop).
    apply orb_false_elim in Hlr. destruct Hlr as [Hpl Hpr].
    exact (real_operands_real_result lm op func vl vr v Hop Hfunc
             (IHl vl Hpl eq_refl) (IHr vr Hpr eq_refl) Hv).
  - rewrite _eval_node_UnaryOp in H. cbn [uses_power] in Hpow.
    destruct (_eval_node lm x) as [vx |]; [| discriminate H].
    specialize (IH vx Hpow eq_refl).
    destruct op; try discriminate H; inversion H; subst v;
      [exact IH | destruct vx; try discriminate IH; reflexivity].
  - destruct func as [| id | | | | | | | |]; try discriminate H.
    rewrite _eval_node_Call in H.
    destruct (_math_funcs lm id) as [f |] eqn:Hf; [| discriminate H].
    destruct (eval_args (_eval_node lm) args) as [| vs]; [discriminate H |].
    destruct (f vs) as [v' | e] eqn:Hv.
    + inversion H; subst v'. exact (functions_return_reals lm id f vs v Hf Hv).
    + destruct e; discriminate H.
Qed.

Lemma complex_results_come_from_power_only_witness :
  is_real (VFloat 3.5) = true.
Proof.
  exact (complex_results_come_from_power_only libm_ref
           (BinOp (Constant (CInt 7)) Div (Constant (CInt 2)))
           (VFloat 3.5) eq_refl eq_refl).
Defined.

(** *** Arguments the functions turn down *)

(** X3.  Each function takes its own number of arguments, [log] one or
    two, [pow] two, every other one; a call with another number of
    arguments, once the arguments have evaluated, is reported as bad
    arguments, whatever the values. *)
Theorem wrong_argument_count_is_bad_arguments (lm : Libm)
  (func_name : string) (args : list expr)
  (keywords : list (option string * expr)) (vs : list value) :
  In func_name function_names ->
  eval_args (_eval_node lm) args = inr vs ->
  ~ In (List.length args) (arities func_name) ->
  _eval_node lm (Call (Name func_name) args keywords)
  = Error (Bad_arguments_for func_name TypeError).
Proof.
  intros Hname Hargs Hcount.
  rewrite _eval_node_Call, Hargs.
  destruct (eval_args_values _ _ _ Hargs) as [_ Hlen].
  rewrite <- Hlen in Hcount. clear Hargs Hlen.
  cbn [In function_names] in Hname.
  repeat match goal with
         | H : _ \/ _ |- _ => destruct H as [H | H]
         end; try contradiction; subst func_name;
    cbn [arities String.eqb Ascii.eqb Bool.eqb In] in Hcount;
    destruct vs as [| v1 [| v2 [| v3 vs]]]; cbn [List.length] in Hcount;
    try (exfalso; apply Hcount; tauto); reflexivity.
Qed.

Lemma wrong_argument_count_is_bad_arguments_witness :
  _eval_node libm_ref
    (Call (Name "sqrt") [Constant (CInt 1); Constant (CInt 2)] [])
  = Error (Bad_arguments_for "sqrt" TypeError).
Proof.
  refine (wrong_argument_count_is_bad_arguments libm_ref "sqrt"
            [Constant (CInt 1); Constant (CInt 2)] [] [VInt 1; VInt 2]
            _ eq_refl _).
  - cbn [In function_names]. tauto.
  - cbn. intros [H | H]; [discriminate H | exact H].
Defined.

(** X4.  A complex number as first argument is bad arguments for every
    function but [abs]: what [**] has made complex cannot be passed on to
    the other functions. *)
Theorem complex_argument_is_bad_arguments (lm : Libm) (func_name : string)
  (a : expr) (rest : list expr) (keywords : list (option string * expr))
  (re im : float) (vs : list value) :
  In func_name function_names -> func_name <> "abs" ->
  _eval_node lm a = Value (VComplex re im) ->
  eval_args (_eval_node lm) rest = inr vs ->
  _eval_node lm (Call (Name func_name) (a :: rest) keywords)
  = Error (Bad_arguments_for func_name TypeError).
Proof.
  intros Hname Habs Ha Hrest.
  rewrite _eval_node_Call. cbn [eval_args]. rewrite Ha, Hrest.
  cbn [In function_names] in Hname.
  repeat match goal with
         | H : _ \/ _ |- _ => destruct H as [H | H]
         end; try contradiction; subst func_name;
    try (now contradiction Habs);
    destruct vs as [| v2 [| v3 vs]]; reflexivity.
Qed.

Lemma complex_argument_is_bad_arguments_witness :
  _eval_node libm_ref
    (Call (Name "sqrt")
       [BinOp (UnaryOp USub (Constant (CInt 8))) Pow (Constant (CFloat 0.5))]
       [])
  = Error (Bad_arguments_for "sqrt" TypeError).
Proof.
  refine (complex_argument_is_bad_arguments libm_ref "sqrt"
            (BinOp (UnaryOp USub (Constant (CInt 8))) Pow
               (Constant (CFloat 0.5)))
            [] [] 1.7319121124709868e-16 2.8284271247461903 []
            _ _ eq_refl eq_refl).
  - cbn [In function_names]. tauto.
  - discriminate.
Defined.

(** *** The unary operators *)

Lemma float_opp_involutive (x : float) : (- - x)%float = x.
Proof.
  rewrite <- (SF2Prim_Prim2SF (- - x)), !opp_spec.
  rewrite <- (SF2Prim_Prim2SF x) at 2.
  f_equal. destruct (Prim2SF x); cbn; now rewrite ?negb_involutive.
Qed.

(** X6.  Unary plus gives back the value of its operand untouched, a
    Boolean included; two unary minus signs give back an integer, a float
    or a complex number as it was, and a Boolean as the integer 0 or 1. *)
Theorem unary_plus_and_double_minus (lm : Libm) (x : expr) (v : value) :
  _eval_node lm x = Value v ->
  _eval_node lm (UnaryOp UAdd x) = Value v
  /\ _eval_node lm (UnaryOp USub (UnaryOp USub x))
     = Value (match v with
              | VBool b => VInt (Z.b2z b)
              | _ => v
              end).
Proof.
  intro H. rewrite !_eval_node_UnaryOp, H. split; [reflexivity |].
  cbn [_allowed_unaryops]. f_equal.
  destruct v as [n | b | y | re im]; unfold neg; cbn [num_of].
  - now rewrite Z.opp_involutive.
  - now rewrite Z.opp_involutive.
  - now rewrite float_opp_involutive.
  - now rewrite !float_opp_involutive.
Qed.

Lemma unary_plus_and_double_minus_witness :
  _eval_node libm_ref (UnaryOp UAdd (Constant (CBool true)))
  = Value (VBool true)
  /\ _eval_node libm_ref
       (UnaryOp USub (UnaryOp USub (Constant (CBool true))))
     = Value (VInt 1).
Proof.
  exact (unary_plus_and_double_minus libm_ref (Constant (CBool true))
           (VBool true) eq_refl).
Defined.

(** *** Text that is not stripped *)



(** *** The page *)

(** Where no button of the keypad is pressed, the loops over the buttons
    leave the buffer and the expression as they are. *)
Lemma no_press (w : widgets) (labels : list string)
  (state : option string * string) :
  (forall label, In label labels -> button w label = false) ->
  fold_left (press w) labels state = state.
Proof.
  revert state. induction labels as [| l labels IH]; intros state H.
  - reflexivity.
  - cbn [fold_left]. unfold press at 2. destruct state as [buffer expr].
    rewrite (H l (or_introl eq_refl)).
    apply IH. intros label Hin. apply H. now right.
Qed.

(** Where the key exists, the expression is the buffer. *)
Lemma buffered_is_the_buffer (b expr : string) : buffered (Some b, expr) = b.
Proof.
  unfold buffered; cbn [fst snd].
  destruct (String.eqb_spec b expr) as [-> | _]; reflexivity.
Qed.

(** A run in which "Compute" alone is pressed. *)
Lemma run_of_compute (lm : Libm) (s : session_state)
  (w : widgets) :
  (forall label, In label (buttons ++ func_buttons)%list ->
                 button w label = false) ->
  button w "Compute" = true ->
  button w "Clear" = false ->
  button w "Clear History" = false ->
  let expr := match expr_buffer s with
              | Some b => b
              | None => text_input w
              end in
  run lm s w
  = if blank expr then
      {| session := s; messages := [Please_enter_an_expression];
         lines := shown (history s); rerun := false |}
    else
      match safe_eval lm expr with
      | Value result =>
          {| session :=
               {| history := (expr, result_display result) :: history s;
                  expr_buffer := Some "" |};
             messages := [Result (result_display result)];
             lines := shown ((expr, result_display result) :: history s);
             rerun := false |}
      | Error e =>
          {| session := s; messages := [Error_message e];
             lines := shown (history s); rerun := false |}
      end.
Proof.
  intros Hkeys Hcompute Hclear Hclear_history expr.
  unfold run. rewrite (no_press w _ _ Hkeys), Hcompute, Hclear, Hclear_history.
  cbn [fst].
  assert (Hexpr : buffered (expr_buffer s, text_input w) = expr).
  { subst expr. destruct (expr_buffer s) as [b |];
      [apply buffered_is_the_buffer | reflexivity]. }
  rewrite Hexpr. destruct s as [h buffer]. cbn [history expr_buffer] in *.
  unfold compute. destruct (blank expr); [reflexivity |].
  destruct (safe_eval lm expr); reflexivity.
Qed.



(** With a buffer in the session, the loops over the buttons end in the
    same buffer and the same expression whatever the text of the input box
    was. *)
Lemma keys_forget_the_text (w w' : widgets) (labels : list string)
  (b t t' : string) :
  (forall label, button w label = button w' label) ->
  fst (fold_left (press w) labels (Some b, t))
  = fst (fold_left (press w') labels (Some b, t'))
  /\ buffered (fold_left (press w) labels (Some b, t))
     = buffered (fold_left (press w') labels (Some b, t'))
  /\ fst (fold_left (press w) labels (Some b, t)) <> None.
Proof.
  intro Hsame. revert b t t'.
  induction labels as [| l labels IH]; intros b t t'.
  - cbn [fold_left fst]. rewrite !buffered_is_the_buffer.
    repeat split; discriminate.
  - cbn [fold_left].
    change (press w (Some b, t) l)
      with (if button w l then (Some (b ++ l), b ++ l) else (Some b, t)).
    change (press w' (Some b, t') l)
      with (if button w' l then (Some (b ++ l), b ++ l) else (Some b, t')).
    rewrite <- (Hsame l). destruct (button w l); apply IH.
Qed.

(** X9.  Once the session has a buffer, which the first press on the
    keypad, the first value computed or the first "Clear" gives it, the
    text of the input box plays no part any more: a run, and so every
    sequence of runs, leaves and shows the same whatever is typed, and the
    buffer stays. *)
Theorem text_box_is_ignored_once_buffered (lm : Libm) (s : session_state)
  (b : string) :
  expr_buffer s = Some b ->
  (forall w w',
     (forall label, button w label = button w' label) ->
     run lm s w = run lm s w')
  /\ (forall w, expr_buffer (session (run lm s w)) <> None)
  /\ (forall ws ws',
        Forall2 (fun w w' => forall label, button w label = button w' label)
                ws ws' ->
        runs lm s ws = runs lm s ws').
Proof.
  intro Hb.
  assert (Hrun : forall s0 b0 w w',
             expr_buffer s0 = Some b0 ->
             (forall label, button w label = button w' label) ->
             run lm s0 w = run lm s0 w').
  { intros s0 b0 w w' H0 Hsame. unfold run. rewrite H0.
    destruct (keys_forget_the_text w w' (buttons ++ func_buttons)%list b0
                (text_input w) (text_input w') Hsame) as [Hfst [Hbuf _]].
    now rewrite Hfst, Hbuf, !Hsame. }
  assert (Hstays : forall s0 b0 w,
             expr_buffer s0 = Some b0 ->
             expr_buffer (session (run lm s0 w)) <> None).
  { intros s0 b0 w H0. unfold run. rewrite H0.
    destruct (keys_forget_the_text w w (buttons ++ func_buttons)%list b0
                (text_input w) (text_input w) (fun _ => eq_refl))
      as [_ [_ Hsome]].
    destruct (button w "Compute").
    - unfold compute.
      destruct (blank _); [| destruct (safe_eval lm _)];
        destruct (button w "Clear"); try destruct (button w "Clear History");
        cbn; try exact Hsome; discriminate.
    - destruct (button w "Clear"); try destruct (button w "Clear History");
        cbn; try exact Hsome; discriminate. }
  split; [exact (fun w w' => Hrun s b w w' Hb) |].
  split; [exact (fun w => Hstays s b w Hb) |].
  intros ws ws' Hall. revert s b Hb.
  induction Hall as [| w w' ws ws' Hsame _ IH]; intros s b Hb.
  - reflexivity.
  - unfold runs in *. cbn [fold_left].
    rewrite <- (Hrun s b w w' Hb Hsame).
    destruct (expr_buffer (session (run lm s w))) as [b' |] eqn:Hb'.
    + exact (IH _ b' Hb').
    + now contradiction (Hstays s b w Hb).
Qed.

Lemma text_box_is_ignored_once_buffered_witness :
  runs libm_ref first_visit
    [pressing "Compute" "1+1"; pressing "Compute" "2+2"]
  = {| history := [("1+1", VInt 2)]; expr_buffer := Some "" |}
  /\ run libm_ref {| history := [("1+1", VInt 2)]; expr_buffer := Some "" |}
       (pressing "Compute" "2+2")
     = run libm_ref {| history := [("1+1", VInt 2)]; expr_buffer := Some "" |}
         (pressing "Compute" "").
Proof.
  split; [reflexivity |].
  exact (proj1 (text_box_is_ignored_once_buffered libm_ref
                  {| history := [("1+1", VInt 2)]; expr_buffer := Some "" |}
                  "" eq_refl)
           (pressing "Compute" "2+2") (pressing "Compute" "")
           (fun _ => eq_refl)).
Defined.

(** X10.  A button of the keypad or of the functions, pressed alone,
    appends its label to the buffer, or to the text of the input box where
    the session has no buffer yet, and touches nothing else. *)
Theorem keypad_appends_to_the_buffer (lm : Libm) (s : session_state)
  (label text : string) :
  In label (buttons ++ func_buttons)%list ->
  run lm s (pressing label text)
  = {| session :=
         {| history := history s;
            expr_buffer := Some (match expr_buffer s with
                                 | Some b => b
                                 | None => text
                                 end ++ label)%string |};
       messages := [];
       lines := shown (history s);
       rerun := false |}.
Proof.
  intro Hin. cbn [In app buttons func_buttons] in Hin.
  destruct s as [h [b |]];
    repeat match goal with
           | H : _ \/ _ |- _ => destruct H as [H | H]
           end; try contradiction; subst label; reflexivity.
Qed.

Lemma keypad_appends_to_the_buffer_witness :
  run libm_ref first_visit (pressing "sqrt(" "2*")
  = {| session := {| history := []; expr_buffer := Some "2*sqrt(" |};
       messages := []; lines := []; rerun := false |}.
Proof.
  refine (keypad_appends_to_the_buffer libm_ref first_visit "sqrt(" "2*" _).
  cbn [In app buttons func_buttons]. tauto.
Defined.

(** X11.  Nothing but "Clear History" takes an entry out of the history.
    A run in which it is not pressed keeps the history or puts one entry
    at its head; over any number of such runs the history that was there
    stays at the tail, below at most one new entry a run. *)
Theorem history_is_only_shortened_by_clear_history (lm : Libm) :
  (forall s w,
     button w "Clear History" = false ->
     history (session (run lm s w)) = history s
     \/ exists entry, history (session (run lm s w)) = entry :: history s)
  /\ (forall s w,
        button w "Clear" = false -> button w "Clear History" = true ->
        history (session (run lm s w)) = [])
  /\ (forall ws s,
        Forall (fun w => button w "Clear History" = false) ws ->
        exists newer,
          history (runs lm s ws) = (newer ++ history s)%list
          /\ (List.length newer <= List.length ws)%nat).
Proof.
  assert (Hone : forall s w,
             button w "Clear History" = false ->
             history (session (run lm s w)) = history s
             \/ exists entry,
                  history (session (run lm s w)) = entry :: history s).
  { intros s w Hch. unfold run. rewrite Hch.
    destruct (button w "Compute").
    - unfold compute.
      destruct (blank _); [| destruct (safe_eval lm _)];
        destruct (button w "Clear"); cbn; eauto.
    - destruct (button w "Clear"); cbn; auto. }
  split; [exact Hone |]. split.
  - intros s w Hclear Hch. unfold run. rewrite Hclear, Hch.
    destruct (button w "Compute"); [| reflexivity].
    unfold compute.
    destruct (blank _); [| destruct (safe_eval lm _)]; reflexivity.
  - induction ws as [| w ws IH]; intros s Hall.
    + exists []. split; [reflexivity | apply le_n].
    + inversion Hall as [| w0 ws0 Hw Hws]; subst.
      unfold runs in *. cbn [fold_left].
      destruct (IH (session (run lm s w)) Hws) as [newer [Heq Hlen]].
      destruct (Hone s w Hw) as [Hsame | [entry Hcons]].
      * exists newer. rewrite Heq, Hsame. split; [reflexivity |].
        cbn [List.length]. now apply le_S.
      * exists (newer ++ [entry])%list. rewrite Heq, Hcons.
        split; [now rewrite <- app_assoc |].
        rewrite length_app. cbn [List.length]. rewrite Nat.add_1_r.
        now apply le_n_S.
Qed.

Lemma history_is_only_shortened_by_clear_history_witness :
  exists newer,
    history (runs libm_ref {| history := [("1", VInt 1)]; expr_buffer := None |}
               [pressing "Compute" "2+2"; pressing "7" ""; pressing "Clear" ""])
    = (newer ++ [("1", VInt 1)])%list
    /\ (List.length newer <= 3)%nat.
Proof.
  refine (proj2 (proj2 (history_is_only_shortened_by_clear_history libm_ref))
            [pressing "Compute" "2+2"; pressing "7" ""; pressing "Clear" ""]
            {| history := [("1", VInt 1)]; expr_buffer := None |} _).
  repeat constructor.
Defined.

(** The entry at a place of a numbered list carries its number. *)
Lemma numbered_nth {A : Type} (l : list A) (n k : nat) (a : A) :
  nth_error l k = Some a ->
  nth_error (combine (seq n (List.length l)) l) k = Some ((n + k)%nat, a).
Proof.
  revert n k. induction l as [| x l IH]; intros n k H;
    destruct k as [| k]; try discriminate H; cbn in *.
  - inversion H. now rewrite Nat.add_0_r.
  - rewrite (IH (S n) k H). now rewrite Nat.add_succ_r.
Qed.

(** X12.  The page shows the first twenty entries of the history and no
    more, numbered from 1 in the order of the history, the newest first. *)
Theorem at_most_twenty_lines_are_shown (lm : Libm) :
  (forall h, List.length (shown h) = Nat.min 20 (List.length h))
  /\ (forall h k entry,
        (k < 20)%nat -> nth_error h k = Some entry ->
        nth_error (shown h) k = Some (S k, entry))
  /\ (forall s w,
        button w "Clear" = false ->
        lines (run lm s w) = shown (history (session (run lm s w)))).
Proof.
  split; [| split].
  - intro h. unfold shown.
    now rewrite length_combine, length_seq, Nat.min_id, length_firstn.
  - intros h k entry Hk Hnth. unfold shown.
    apply (numbered_nth (firstn 20 h) 1 k entry).
    now rewrite nth_error_firstn, (proj2 (Nat.ltb_lt k 20) Hk).
  - intros s w Hclear. unfold run. rewrite Hclear.
    destruct (button w "Compute"); [| reflexivity].
    unfold compute.
    destruct (blank _); [| destruct (safe_eval lm _)]; reflexivity.
Qed.

Lemma at_most_twenty_lines_are_shown_witness :
  nth_error (shown [("2", VInt 2); ("1", VInt 1)]) 1
  = Some (2%nat, ("1", VInt 1)).
Proof.
  refine (proj1 (proj2 (at_most_twenty_lines_are_shown libm_ref))
            [("2", VInt 2); ("1", VInt 1)] 1%nat ("1", VInt 1) _ eq_refl).
  repeat constructor.
Defined.

(** What twelve significant digits make of some floats. *)
Lemma float_12g_examples :
  float_12g 0.30000000000000004 = 0.3
  /\ float_12g 0.3333333333333333 = 0.333333333333
  /\ float_12g 999999999999.9 = 1000000000000
  /\ float_12g 12345678901.25 = 12345678901.2
  /\ float_12g 5e-324 = 5e-324
  /\ float_12g (-0) = (-0)%float
  /\ float_12g infinity = infinity.
Proof. repeat split. Qed.

(** X13.  "Calculate" is a button without effect: pressed alone it leaves
    the session as it is and shows no message.  "Clear", pressed alone,
    keeps the history, empties the buffer and cuts the run short. *)
Theorem calculate_does_nothing_and_clear_empties_the_buffer (lm : Libm)
  (s : session_state) (text : string) :
  run lm s (pressing "Calculate" text)
  = {| session := s; messages := []; lines := shown (history s);
       rerun := false |}
  /\ run lm s (pressing "Clear" text)
     = {| session := {| history := history s; expr_buffer := Some "" |};
          messages := []; lines := []; rerun := true |}.
Proof. destruct s as [h [b |]]; split; reflexivity. Qed.

(** X14.  A value once computed, the text typed for the next computation
    is not read: "Compute", pressed alone in the run after, finds the empty
    buffer in place of the text, asks for an expression and records
    nothing. *)
Theorem text_typed_after_a_value_is_not_computed (lm : Libm)
  (s : session_state) (w w' : widgets) (shown_value : value) :
  compute_alone w -> compute_alone w' ->
  messages (run lm s w) = [Result shown_value] ->
  run lm (session (run lm s w)) w'
  = {| session := session (run lm s w);
       messages := [Please_enter_an_expression];
       lines := shown (history (session (run lm s w)));
       rerun := false |}.
Proof.
  intros [Hc [Hcl [Hch Hkeys]]] [Hc' [Hcl' [Hch' Hkeys']]] Hmsg.
  rewrite (run_of_compute lm s w Hkeys Hc Hcl Hch) in *.
  cbv zeta in *.
  destruct (blank _); [discriminate Hmsg |].
  destruct (safe_eval lm _); [| discriminate Hmsg].
  now rewrite (run_of_compute lm _ w' Hkeys' Hc' Hcl' Hch').
Qed.

Lemma compute_alone_pressing (text : string) :
  compute_alone (pressing "Compute" text).
Proof.
  repeat split. intros label Hin. cbn [In app buttons func_buttons] in Hin.
  repeat match goal with
         | H : _ \/ _ |- _ => destruct H as [H | H]
         end; try contradiction; subst label; reflexivity.
Defined.

Lemma text_typed_after_a_value_is_not_computed_witness :
  run libm_ref (session (run libm_ref first_visit (pressing "Compute" "1+1")))
    (pressing "Compute" "2+2")
  = {| session := {| history := [("1+1", VInt 2)]; expr_buffer := Some "" |};
       messages := [Please_enter_an_expression];
       lines := [(1%nat, ("1+1", VInt 2))];
       rerun := false |}.
Proof.
  exact (text_typed_after_a_value_is_not_computed libm_ref first_visit
           (pressing "Compute" "1+1") (pressing "Compute" "2+2") (VInt 2)
           (compute_alone_pressing "1+1") (compute_alone_pressing "2+2")
           eq_refl).
Defined.

(** X15.  The history holds computations only: every run keeps it that
    each entry is a text that is not blank and evaluates, with its value as
    displayed; so it is after any runs of a visit. *)
Theorem history_holds_computations_only (lm : Libm) :
  (forall s w,
     Forall (computed lm) (history s) ->
     Forall (computed lm) (history (session (run lm s w))))
  /\ (forall ws, Forall (computed lm) (history (runs lm first_visit ws))).
Proof.
  assert (Hone : forall s w,
             Forall (computed lm) (history s) ->
             Forall (computed lm) (history (session (run lm s w)))).
  { intros s w H. unfold run.
    destruct (button w "Compute").
    - unfold compute.
      destruct (blank (buffered _)) eqn:Hblank;
        [| destruct (safe_eval lm (buffered _)) as [result |] eqn:Heval];
        destruct (button w "Clear");
        try destruct (button w "Clear History");
        cbn [session history fst snd];
        try exact H; try constructor; try exact H.
      all: split; [exact Hblank | now exists result].
    - destruct (button w "Clear"); try destruct (button w "Clear History");
        cbn [session history]; try exact H; constructor. }
  split; [exact Hone |].
  intro ws. unfold runs.
  assert (Hany : forall s, Forall (computed lm) (history s) ->
                           Forall (computed lm)
                             (history (fold_left
                                         (fun s w => session (run lm s w))
                                         ws s))).
  { induction ws as [| w ws IH]; intros s H; cbn [fold_left];
      [exact H | exact (IH _ (Hone s w H))]. }
  apply Hany. constructor.
Qed.

Lemma history_holds_computations_only_witness :
  Forall (computed libm_ref)
    (history (session (run libm_ref
                         {| history := [("1+1", VInt 2)];
                            expr_buffer := None |}
                         (pressing "Compute" "7 / 2")))).
Proof.
  refine (proj1 (history_holds_computations_only libm_ref)
            {| history := [("1+1", VInt 2)]; expr_buffer := None |}
            (pressing "Compute" "7 / 2") _).
  repeat constructor. now exists (VInt 2).
Defined.
